(** * Dee Why Hidden Gems API: the request handlers of [server.js]

    A shallow embedding of the Express handlers of [src/server.js] and of
    the part of the MongoDB driver they call, followed by the properties
    the specification states about them.

    Layout:
    - [ObjectId]: the driver's identifier type, its textual format;
    - [value], documents and JavaScript truthiness;
    - the monad [M] of handler code: the collection, the trace of driver
      calls, and exceptions with [try_catch];
    - the driver calls [find], [findOne], [insertOne], [updateOne],
      [deleteOne];
    - the handlers, one definition per route;
    - the theorems.

    Scope.  A request runs against the database handle that [connectDB]
    has set, and the store answers every call: of the driver's failures the
    model has those that the documents themselves cause, which are a
    malformed identifier string, a field name with a NUL byte, a refused or
    duplicate [_id] on insert and an empty field name in a [$set].  A
    request body is the object [express.json()] parsed.  The store reads a
    name of a [$set] that has a dot in it as a path into embedded documents
    and gives names that begin with a dollar sign a meaning of their own, and
    the driver one to the name [_bsontype]; the model does not follow them
    there, nor the store into its limit on nesting, and the statements that
    depend on how a name is read are made for documents that are [storable]:
    plain names, nesting within the limit. *)

From Stdlib Require Import ZArith Ascii String List Lia.
From stdpp Require Import base option strings list gmap fin_maps.

Local Open Scope string_scope.
Local Open Scope Z_scope.
Local Open Scope list_scope.

(** ** Identifiers of the store *)

(** An [ObjectId] is twelve bytes, written as twenty-four hexadecimal
    digits.  [ObjectId.isValid] and [new ObjectId(s)] of the driver accept a
    string exactly when it is such a text, in either letter case;
    [toHexString] (which is also how an identifier is serialised in a JSON
    response) prints lower case.  The handlers and the statements about
    them use the format through [isValid] and [parse] only. *)
Module ObjectId.

Inductive hexdigit : Set :=
| H0 | H1 | H2 | H3 | H4 | H5 | H6 | H7
| H8 | H9 | HA | HB | HC | HD | HE | HF.

Definition t : Set := list hexdigit.

Definition hexdigit_eq_dec (a b : hexdigit) : {a = b} + {a <> b}.
Proof. decide equality. Defined.

Definition hex_char (d : hexdigit) : ascii :=
  match d with
  | H0 => "0" | H1 => "1" | H2 => "2" | H3 => "3"
  | H4 => "4" | H5 => "5" | H6 => "6" | H7 => "7"
  | H8 => "8" | H9 => "9" | HA => "a" | HB => "b"
  | HC => "c" | HD => "d" | HE => "e" | HF => "f"
  end%char.

Definition char_hex (c : ascii) : option hexdigit :=
  match c with
  | "0" => Some H0 | "1" => Some H1 | "2" => Some H2 | "3" => Some H3
  | "4" => Some H4 | "5" => Some H5 | "6" => Some H6 | "7" => Some H7
  | "8" => Some H8 | "9" => Some H9
  | "a" => Some HA | "b" => Some HB | "c" => Some HC
  | "d" => Some HD | "e" => Some HE | "f" => Some HF
  | "A" => Some HA | "B" => Some HB | "C" => Some HC
  | "D" => Some HD | "E" => Some HE | "F" => Some HF
  | _ => None
  end%char.

Fixpoint digits (s : string) : option (list hexdigit) :=
  match s with
  | EmptyString => Some []
  | String c s' =>
      match char_hex c, digits s' with
      | Some d, Some ds => Some (d :: ds)
      | _, _ => None
      end
  end.

(** [new ObjectId(s)]: the identifier a string denotes, if it denotes one. *)
Definition parse (s : string) : option t :=
  if (String.length s =? 24)%nat then digits s else None.

Definition isValid (s : string) : bool :=
  match parse s with Some _ => true | None => false end.

Fixpoint toHexString (o : t) : string :=
  match o with
  | [] => EmptyString
  | d :: ds => String (hex_char d) (toHexString ds)
  end.

(** What the driver's generator hands out: twelve bytes. *)
Definition wf (o : t) : Prop := length o = 24%nat.

End ObjectId.

(** ** Values and documents *)

(** The values a stored document can hold: what [express.json()] parses
    out of a request body, plus the two kinds the server and the driver
    add, identifiers and dates.  Embedded documents keep the order of their
    fields, which the store's comparison of values observes.  Numbers are
    kept as integers: the handlers look at a number only to see whether it
    is zero. *)
#[warnings="-register-all"]
Inductive value : Type :=
| VNull
| VBool (b : bool)
| VNum (n : Z)
| VStr (s : string)
| VArr (xs : list value)
| VObj (fields : list (string * value))
| VObjectId (o : ObjectId.t)
| VDate (ms : Z).

Fixpoint value_eq_dec (x y : value) {struct x} : {x = y} + {x <> y}.
Proof.
  decide equality.
  - apply bool_dec.
  - apply Z.eq_dec.
  - apply string_dec.
  - revert xs0. induction xs as [|a xs IH]; intros [|b ys].
    + left; reflexivity.
    + right; discriminate.
    + right; discriminate.
    + destruct (value_eq_dec a b) as [->|Hab];
        [destruct (IH ys) as [->|Hys]; [left; reflexivity|]|];
        right; intros [=]; contradiction.
  - revert fields0. induction fields as [|[k a] fs IH]; intros [|[k' b] gs].
    + left; reflexivity.
    + right; discriminate.
    + right; discriminate.
    + destruct (string_dec k k') as [->|Hk];
        [destruct (value_eq_dec a b) as [->|Hab];
           [destruct (IH gs) as [->|Hgs]; [left; reflexivity|]|]|];
        right; intros [=]; contradiction.
  - apply (List.list_eq_dec ObjectId.hexdigit_eq_dec).
  - apply Z.eq_dec.
Defined.

#[global] Instance value_eq_decision : EqDecision value := value_eq_dec.

(** A document, and equally a parsed request body: a JavaScript object,
    one value per own property name. *)
Abbreviation doc := (gmap string value).

(** JavaScript truthiness of a value. *)
Definition truthy (v : value) : bool :=
  match v with
  | VNull => false
  | VBool b => b
  | VNum n => negb (n =? 0)
  | VStr s => negb (String.eqb s "")
  | VArr _ | VObj _ | VObjectId _ | VDate _ => true
  end.

(** [!obj.k]: reading a property that is absent gives [undefined], which
    is falsy. *)
Definition js_not (o : option value) : bool :=
  match o with
  | None => true
  | Some v => negb (truthy v)
  end.

(** ** The world of a handler, and the monad of handler code *)

(** The calls a handler makes on [db.collection('hidden_gems')]. *)
Inductive store_call : Type :=
| CallFind
| CallFindOne (filter_id : value)
| CallInsertOne (document : doc)
| CallUpdateOne (filter_id : value) (set : doc)
| CallDeleteOne (filter_id : value).

(** The state a request runs against: the documents of the collection, in
    insertion order, and the calls made on it so far.  The database
    handle [db] is the one [connectDB] has set. *)
Record world : Type := World {
  hidden_gems : list doc;
  calls : list store_call
}.

(** What the driver raises. *)
Inductive error : Type :=
| BSONError           (* new ObjectId(s) on a string that is no identifier;
                         a field name with a NUL byte *)
| DuplicateKey        (* E11000: an _id already in the collection *)
| BadIdValue          (* an array as _id, a $-prefixed field in an _id *)
| EmptyPath.          (* an empty field name in a $set *)

Inductive outcome (A : Type) : Type :=
| Return (a : A)
| Throw (e : error).
Arguments Return {A} a.
Arguments Throw {A} e.

Definition M (A : Type) : Type := world -> outcome A * world.

Definition ret {A} (a : A) : M A := fun w => (Return a, w).

Definition throw {A} (e : error) : M A := fun w => (Throw e, w).

Definition bind {A B} (m : M A) (k : A -> M B) : M B :=
  fun w =>
    match m w with
    | (Return a, w') => k a w'
    | (Throw e, w') => (Throw e, w')
    end.

(** [try { m } catch (error) { h }] *)
Definition try_catch {A} (m : M A) (h : error -> M A) : M A :=
  fun w =>
    match m w with
    | (Return a, w') => (Return a, w')
    | (Throw e, w') => h e w'
    end.

Notation "x <- m ;; k" := (bind m (fun x => k))
  (at level 100, m at next level, right associativity).

(** ** The driver *)

Definition has_id (v : value) (d : doc) : bool :=
  bool_decide (d !! "_id" = Some v).

Definition record_call (c : store_call) (w : world) : world :=
  {| hidden_gems := hidden_gems w; calls := calls w ++ [c] |}.

(** [new ObjectId(gemId)] *)
Definition new_ObjectId (gemId : string) : M value :=
  match ObjectId.parse gemId with
  | Some o => ret (VObjectId o)
  | None => throw BSONError
  end.

(** [collection.find().toArray()] *)
Definition find : M (list doc) :=
  fun w => (Return (hidden_gems w), record_call CallFind w).

(** [collection.findOne({ _id: v })]: the first document with that
    identifier, [None] for JavaScript's [null]. *)
Definition findOne (v : value) : M (option doc) :=
  fun w => (Return (List.find (has_id v) (hidden_gems w)),
            record_call (CallFindOne v) w).

(** *** What the driver and the store refuse *)

Definition NUL : ascii := "000"%char.

Fixpoint has_char (c : ascii) (s : string) : bool :=
  match s with
  | EmptyString => false
  | String a s' => Ascii.eqb a c || has_char c s'
  end.

Definition dollar_name (k : string) : bool :=
  match k with
  | String "$" _ => true
  | _ => false
  end.

(** The driver's serialiser refuses a field name that has a NUL byte in
    it, at any depth of a document. *)
Fixpoint serializable (v : value) : bool :=
  match v with
  | VArr xs => forallb serializable xs
  | VObj fields =>
      forallb (λ kx, negb (has_char NUL kx.1) && serializable kx.2) fields
  | _ => true
  end.

Definition doc_forallb (f : string → value → bool) (d : doc) : bool :=
  forallb (λ kx, f kx.1 kx.2) (map_to_list d).

Definition serializable_doc (d : doc) : bool :=
  doc_forallb (λ k x, negb (has_char NUL k) && serializable x) d.

(** The store takes no array as an identifier, and no embedded document
    with a field whose name begins with a dollar sign. *)
Definition id_refused (v : value) : bool :=
  match v with
  | VArr _ => true
  | VObj fields => existsb (λ kx, dollar_name kx.1) fields
  | _ => false
  end.

(** Why an insert of [d], which has its identifier by now, fails on the
    collection [c], if it does. *)
Definition insert_refusal (d : doc) (c : list doc) : option error :=
  if negb (serializable_doc d) then Some BSONError
  else
    match d !! "_id" with
    | None => Some BadIdValue
    | Some v =>
        if id_refused v then Some BadIdValue
        else if existsb (has_id v) c then Some DuplicateKey
        else None
    end.

(** Why an update with [{ $set: set }] fails, if it does; it fails the
    same whether or not a document matches the filter. *)
Definition set_refusal (set : doc) : option error :=
  if negb (serializable_doc set) then Some BSONError
  else if bool_decide (is_Some (set !! "")) then Some EmptyPath
  else None.

Record InsertOneResult : Type := { insertedId : value }.

(** [collection.insertOne(d)].  A document that has no [_id] (or has
    [null] there) is given the identifier [gen] the driver generates, and
    the caller's object is the one that receives it; the second component
    is that object after the call.  An [_id] of the document's own is kept.
    A refused insert throws and leaves the collection as it is. *)
Definition insertOne (gen : ObjectId.t) (d : doc) : M (InsertOneResult * doc) :=
  fun w =>
    let d' := match d !! "_id" with
              | None | Some VNull => <["_id" := VObjectId gen]> d
              | Some _ => d
              end in
    let w' := record_call (CallInsertOne d) w in
    match insert_refusal d' (hidden_gems w), d' !! "_id" with
    | None, Some v =>
        (Return ({| insertedId := v |}, d'),
         {| hidden_gems := hidden_gems w ++ [d']; calls := calls w' |})
    | Some e, _ => (Throw e, w')
    | None, None => (Throw BadIdValue, w')
    end.

Record UpdateResult : Type := { matchedCount : Z; modifiedCount : Z }.

(** [$set] of plain field names: every field of [set] is written into
    the document, the other fields stay. *)
Definition apply_set (set d : doc) : doc := set ∪ d.

(** The first document with identifier [v] receives the [$set]; it counts
    as modified when that changes it. *)
Fixpoint update_first (v : value) (set : doc) (c : list doc)
  : UpdateResult * list doc :=
  match c with
  | [] => ({| matchedCount := 0; modifiedCount := 0 |}, [])
  | d :: c' =>
      if has_id v d then
        let d' := apply_set set d in
        ({| matchedCount := 1;
            modifiedCount := if decide (d' = d) then 0 else 1 |}, d' :: c')
      else
        let (r, c'') := update_first v set c' in (r, d :: c'')
  end.

(** [collection.updateOne({ _id: v }, { $set: set })].  A refused update
    throws and leaves the collection as it is. *)
Definition updateOne (v : value) (set : doc) : M UpdateResult :=
  fun w =>
    match set_refusal set with
    | Some e => (Throw e, record_call (CallUpdateOne v set) w)
    | None =>
        let (r, c) := update_first v set (hidden_gems w) in
        (Return r,
         {| hidden_gems := c; calls := calls w ++ [CallUpdateOne v set] |})
    end.

Record DeleteResult : Type := { deletedCount : Z }.

Fixpoint delete_first (v : value) (c : list doc) : DeleteResult * list doc :=
  match c with
  | [] => ({| deletedCount := 0 |}, [])
  | d :: c' =>
      if has_id v d then ({| deletedCount := 1 |}, c')
      else let (r, c'') := delete_first v c' in (r, d :: c'')
  end.

(** [collection.deleteOne({ _id: v })] *)
Definition deleteOne (v : value) : M DeleteResult :=
  fun w =>
    let (r, c) := delete_first v (hidden_gems w) in
    (Return r, {| hidden_gems := c; calls := calls w ++ [CallDeleteOne v] |}).

(** ** Responses *)

Inductive payload : Type :=
| Text (s : string)                       (* res.send(s) *)
| Message (message : string)              (* { message } *)
| Gem (gem : doc)                         (* a document *)
| Gems (gems : list doc)                  (* an array of documents *)
| Added (message : string) (insertedId : value) (newGem : doc).
                                          (* { message, insertedId, newGem } *)

Record response : Type := Response { status : Z; body : payload }.

(** [res.status(code).json(p)]; [res.json(p)] and [res.send(s)] answer with
    Express's default status 200. *)
Definition res_status_json (code : Z) (p : payload) : M response :=
  ret {| status := code; body := p |}.

Definition res_json (p : payload) : M response := res_status_json 200 p.

Definition res_send (s : string) : M response :=
  ret {| status := 200; body := Text s |}.

(** ** The handlers *)

(** [app.get('/')] *)
Definition get_root : M response :=
  res_send "Dee Why Hidden Gems API is running!".

(** [app.get('/api/gems')] *)
Definition get_gems : M response :=
  try_catch
    (gems <- find ;;
     res_json (Gems gems))
    (fun _ => res_status_json 500 (Message "Failed to fetch hidden gems")).

(** [app.get('/api/gems/:id')] *)
Definition get_gem (gemId : string) : M response :=
  try_catch
    (if negb (ObjectId.isValid gemId) then
       res_status_json 400 (Message "Invalid Gem ID format")
     else
       oid <- new_ObjectId gemId ;;
       gem <- findOne oid ;;
       match gem with
       | None => res_status_json 404 (Message "Hidden gem not found")
       | Some g => res_json (Gem g)
       end)
    (fun _ => res_status_json 500 (Message "Failed to fetch hidden gem")).

(** [app.post('/api/gems')].  [now] is what [new Date()] reads off the
    clock and [gen] the identifier the driver would generate during this
    request. *)
Definition post_gem (now : Z) (gen : ObjectId.t) (newGem : doc) : M response :=
  if js_not (newGem !! "title") || js_not (newGem !! "description")
     || js_not (newGem !! "category") then
    res_status_json 400
      (Message "Missing required gem fields (title, description, category)")
  else
    let newGem := <["submissionDate" := VDate now]> newGem in
    try_catch
      (inserted <- insertOne gen newGem ;;
       let (result, newGem) := inserted in
       res_status_json 201
         (Added "Hidden gem added successfully" (insertedId result) newGem))
      (fun _ => res_status_json 500 (Message "Failed to add hidden gem")).

(** [app.put('/api/gems/:id')] *)
Definition put_gem (gemId : string) (updatedGem : doc) : M response :=
  try_catch
    (if negb (ObjectId.isValid gemId) then
       res_status_json 400 (Message "Invalid Gem ID format")
     else
       let updatedGem := delete "_id" updatedGem in
       oid <- new_ObjectId gemId ;;
       result <- updateOne oid updatedGem ;;
       if matchedCount result =? 0 then
         res_status_json 404 (Message "Hidden gem not found")
       else if modifiedCount result =? 0 then
         res_status_json 200
           (Message "No changes made to the hidden gem (data was identical)")
       else
         res_status_json 200 (Message "Hidden gem updated successfully"))
    (fun _ => res_status_json 500 (Message "Failed to update hidden gem")).

(** [app.delete('/api/gems/:id')] *)
Definition delete_gem (gemId : string) : M response :=
  try_catch
    (if negb (ObjectId.isValid gemId) then
       res_status_json 400 (Message "Invalid Gem ID format")
     else
       oid <- new_ObjectId gemId ;;
       result <- deleteOne oid ;;
       if deletedCount result =? 0 then
         res_status_json 404 (Message "Hidden gem not found or already deleted")
       else
         res_status_json 200 (Message "Hidden gem deleted successfully"))
    (fun _ => res_status_json 500 (Message "Failed to delete hidden gem")).

(** ** Vocabulary of the statements *)

(** The three required fields of a creation payload are all present and
    truthy. *)
Definition required_truthy (newGem : doc) : Prop :=
  ∃ t d c,
    newGem !! "title" = Some t ∧ truthy t = true ∧
    newGem !! "description" = Some d ∧ truthy d = true ∧
    newGem !! "category" = Some c ∧ truthy c = true.

(** A field is missing, or present and empty. *)
Definition missing_or_empty (o : option value) : Prop :=
  o = None ∨ o = Some (VStr "").

(** The falsy values a JSON body can carry. *)
Definition falsy_json (v : value) : Prop :=
  v = VStr "" ∨ v = VNum 0 ∨ v = VBool false ∨ v = VNull.

Definition missing_fields_response : response :=
  {| status := 400;
     body := Message
       "Missing required gem fields (title, description, category)" |}.

Definition invalid_id_response : response :=
  {| status := 400; body := Message "Invalid Gem ID format" |}.

(** The identifier under which [insertOne] files a document. *)
Definition insert_id (gen : ObjectId.t) (d : doc) : value :=
  match d !! "_id" with
  | None | Some VNull => VObjectId gen
  | Some v => v
  end.

(** A plain field name: not empty, no dot, no NUL byte, no dollar sign
    in front, and not [_bsontype], the name by which the driver tells the
    objects of its own types. *)
Definition plain_name (k : string) : bool :=
  negb (String.eqb k "") && negb (has_char "." k) && negb (has_char NUL k)
  && negb (dollar_name k) && negb (String.eqb k "_bsontype").

(** A value in which every field name, at every depth, is plain. *)
Fixpoint plain_value (v : value) : bool :=
  match v with
  | VArr xs => forallb plain_value xs
  | VObj fields => forallb (λ kx, plain_name kx.1 && plain_value kx.2) fields
  | _ => true
  end.

(** How deep arrays and embedded documents are nested in a value. *)
Fixpoint depth (v : value) : nat :=
  match v with
  | VArr xs => S (list_max (map depth xs))
  | VObj fields => S (list_max (map (λ kx, depth kx.2) fields))
  | _ => 0
  end.

(** The store keeps documents of up to 100 levels, the document itself
    being the first. *)
Definition nesting_limit : nat := 100.

Definition storableb (d : doc) : bool :=
  doc_forallb
    (λ k x, plain_name k && plain_value x && (depth x <? nesting_limit)%nat) d.

(** A document the store takes as it stands, as a new record or as a
    [$set], and whose names mean to the store the fields they name: plain
    names throughout, nesting within the limit. *)
Definition storable (d : doc) : Prop :=
  ∀ k x, d !! k = Some x →
    plain_name k = true ∧ plain_value x = true ∧
    (depth x < nesting_limit)%nat.

(** The identifier a new record would be filed under is one the store
    can take: no array, and not the identifier of a record. *)
Definition identifier_free (gen : ObjectId.t) (d : doc) (w : world) : Prop :=
  (∀ xs, insert_id gen d ≠ VArr xs) ∧
  (∀ e, e ∈ hidden_gems w → e !! "_id" ≠ Some (insert_id gen d)).

(** The identifiers and the submission dates of a collection, record by
    record. *)
Definition ids (c : list doc) : list (option value) :=
  map (λ d : doc, d !! "_id") c.

Definition dates (c : list doc) : list (option value) :=
  map (λ d : doc, d !! "submissionDate") c.

(** A sequence of create and update requests, run one after the other. *)
Inductive request : Type :=
| Create (now : Z) (gen : ObjectId.t) (newGem : doc)
| Update (gemId : string) (updatedGem : doc).

Definition serve (q : request) (w : world) : outcome response * world :=
  match q with
  | Create now gen newGem => post_gem now gen newGem w
  | Update gemId updatedGem => put_gem gemId updatedGem w
  end.

Fixpoint serve_all (qs : list request) (w : world) : world :=
  match qs with
  | [] => w
  | q :: qs' => serve_all qs' (snd (serve q w))
  end.

(** The answers of the update and delete handlers, by the counts the
    driver reports. *)
Definition put_response (r : UpdateResult) : response :=
  if matchedCount r =? 0 then
    {| status := 404; body := Message "Hidden gem not found" |}
  else if modifiedCount r =? 0 then
    {| status := 200;
       body := Message "No changes made to the hidden gem (data was identical)" |}
  else
    {| status := 200; body := Message "Hidden gem updated successfully" |}.

Definition delete_response (r : DeleteResult) : response :=
  if deletedCount r =? 0 then
    {| status := 404;
       body := Message "Hidden gem not found or already deleted" |}
  else
    {| status := 200; body := Message "Hidden gem deleted successfully" |}.

(** The document [post_gem] hands to the store, after the store has
    filed it. *)
Definition stored_gem (now : Z) (gen : ObjectId.t) (newGem : doc) : doc :=
  let stamped := <["submissionDate" := VDate now]> newGem in
  match newGem !! "_id" with
  | None | Some VNull => <["_id" := VObjectId gen]> stamped
  | Some _ => stamped
  end.

Definition not_found_response : response :=
  {| status := 404; body := Message "Hidden gem not found" |}.

Definition no_changes_response : response :=
  {| status := 200;
     body := Message "No changes made to the hidden gem (data was identical)" |}.

Definition updated_response : response :=
  {| status := 200; body := Message "Hidden gem updated successfully" |}.

(** ** Sample requests *)

Definition gen0 : ObjectId.t := repeat ObjectId.HA 24.

Definition no_gems : world := {| hidden_gems := []; calls := [] |}.

Definition beach : doc :=
  {[ "title" := VStr "Hidden Beach";
     "description" := VStr "Secluded cove";
     "category" := VStr "Nature" ]}.

(** A payload that brings an identifier of its own. *)
Definition named_beach : doc := <["_id" := VStr "beach"]> beach.

(** An update body whose one field has the empty name. *)
Definition nameless : doc := {[ "" := VNum 1 ]}.

(** The collection after [beach] has been created at time 1700000000000. *)
Definition one_gem : world := (post_gem 1700000000000 gen0 beach no_gems).2.

(** The collection after a payload with a field of the empty name has
    been created. *)
Definition odd_gem : world :=
  (post_gem 1700000000000 gen0 (<["" := VNum 1]> beach) no_gems).2.

(** The collection after [named_beach] has been created. *)
Definition one_named_gem : world :=
  (post_gem 1700000000000 gen0 named_beach no_gems).2.

(** ** The routes together *)

(** A request on any of the six routes, with what the server reads from
    its surroundings while it serves it. *)
Inductive api_request : Type :=
| GetRoot
| GetGems
| GetGem (gemId : string)
| PostGem (now : Z) (gen : ObjectId.t) (newGem : doc)
| PutGem (gemId : string) (updatedGem : doc)
| DeleteGem (gemId : string).

Definition handle (q : api_request) : M response :=
  match q with
  | GetRoot => get_root
  | GetGems => get_gems
  | GetGem gemId => get_gem gemId
  | PostGem now gen newGem => post_gem now gen newGem
  | PutGem gemId updatedGem => put_gem gemId updatedGem
  | DeleteGem gemId => delete_gem gemId
  end.

Fixpoint handle_all (qs : list api_request) (w : world) : world :=
  match qs with
  | [] => w
  | q :: qs' => handle_all qs' (handle q w).2
  end.

(** The call a route may make on the store. *)
Definition call_of (q : api_request) (c : store_call) : Prop :=
  match q, c with
  | GetGems, CallFind => True
  | GetGem _, CallFindOne _ => True
  | PostGem _ _ _, CallInsertOne _ => True
  | PutGem _ _, CallUpdateOne _ _ => True
  | DeleteGem _, CallDeleteOne _ => True
  | _, _ => False
  end.

(** A record has the fields creation gives it. *)
Definition complete (d : doc) : Prop :=
  is_Some (d !! "_id") ∧ is_Some (d !! "submissionDate") ∧
  is_Some (d !! "title") ∧ is_Some (d !! "description") ∧
  is_Some (d !! "category").

(** No two records share an identifier, and every record is complete. *)
Definition consistent (c : list doc) : Prop :=
  NoDup (ids c) ∧ Forall complete c.

Definition insert_failed_response : response :=
  {| status := 500; body := Message "Failed to add hidden gem" |}.

Definition update_failed_response : response :=
  {| status := 500; body := Message "Failed to update hidden gem" |}.

Definition deleted_response : response :=
  {| status := 200; body := Message "Hidden gem deleted successfully" |}.

Definition already_deleted_response : response :=
  {| status := 404; body := Message "Hidden gem not found or already deleted" |}.

(** ** Basic facts *)

Section Truthiness.

Lemma js_not_false (o : option value) :
  js_not o = false ↔ ∃ v, o = Some v ∧ truthy v = true.
Proof.
  destruct o as [v|]; simpl.
  - rewrite negb_false_iff. split; [eauto|]. by intros (? & [= <-] & ?).
  - split; [done|]. by intros (? & ? & ?).
Qed.

Lemma js_not_missing_or_empty (o : option value) :
  missing_or_empty o → js_not o = true.
Proof. by intros [-> | ->]. Qed.

Lemma js_not_falsy_json (v : value) : falsy_json v → js_not (Some v) = true.
Proof. by intros [-> | [-> | [-> | ->]]]. Qed.

Lemma required_check (newGem : doc) :
  js_not (newGem !! "title") || js_not (newGem !! "description")
    || js_not (newGem !! "category") = false
  ↔ required_truthy newGem.
Proof.
  rewrite !orb_false_iff, !js_not_false. unfold required_truthy.
  split.
  - intros [[(t & ? & ?) (d & ? & ?)] (c & ? & ?)]. by exists t, d, c.
  - intros (t & d & c & ? & ? & ? & ? & ? & ?). eauto 10.
Qed.

End Truthiness.

Section Identifiers.

Lemma isValid_parse (s : string) :
  ObjectId.isValid s = true ↔ ∃ o, ObjectId.parse s = Some o.
Proof.
  unfold ObjectId.isValid. destruct (ObjectId.parse s) as [o|]; split.
  - eauto.
  - done.
  - done.
  - by intros [? ?].
Qed.

Lemma char_hex_hex_char (d : ObjectId.hexdigit) :
  ObjectId.char_hex (ObjectId.hex_char d) = Some d.
Proof. by destruct d. Qed.

Lemma digits_toHexString (o : ObjectId.t) :
  ObjectId.digits (ObjectId.toHexString o) = Some o.
Proof.
  induction o as [|d o IH]; [done|].
  cbn [ObjectId.toHexString ObjectId.digits].
  by rewrite char_hex_hex_char, IH.
Qed.

Lemma length_toHexString (o : ObjectId.t) :
  String.length (ObjectId.toHexString o) = length o.
Proof. induction o as [|d o IH]; simpl; congruence. Qed.

(** The text of an identifier denotes that identifier. *)
Lemma parse_toHexString (o : ObjectId.t) :
  ObjectId.wf o → ObjectId.parse (ObjectId.toHexString o) = Some o.
Proof.
  intros Hwf. unfold ObjectId.parse.
  rewrite length_toHexString, Hwf. apply digits_toHexString.
Qed.

End Identifiers.

Section Store.

Implicit Types (v : value) (d set : doc) (c : list doc).

Lemma find_existsb v c :
  List.find (has_id v) c = None ↔ existsb (has_id v) c = false.
Proof.
  induction c as [|d c IH]; simpl; [done|].
  destruct (has_id v d); simpl; [|done]. split; discriminate.
Qed.

Lemma find_has_id v c d : List.find (has_id v) c = Some d → d !! "_id" = Some v.
Proof.
  intros H. apply find_some in H as [_ H].
  unfold has_id in H. by apply bool_decide_eq_true in H.
Qed.

Lemma apply_set_lookup set d k :
  apply_set set d !! k =
    match set !! k with Some x => Some x | None => d !! k end.
Proof.
  unfold apply_set. rewrite lookup_union.
  by destruct (set !! k), (d !! k).
Qed.

(** A [$set] leaves the document as it is exactly when each of its fields
    is already there with the same value. *)
Lemma apply_set_same set d :
  apply_set set d = d ↔ ∀ k x, set !! k = Some x → d !! k = Some x.
Proof.
  split.
  - intros Heq k x Hk. rewrite <- Heq, apply_set_lookup. by rewrite Hk.
  - intros H. apply map_eq. intros k. rewrite apply_set_lookup.
    destruct (set !! k) as [x|] eqn:Hk; [|done]. symmetry. by apply H.
Qed.

Lemma update_first_none v set c :
  List.find (has_id v) c = None →
  update_first v set c = ({| matchedCount := 0; modifiedCount := 0 |}, c).
Proof.
  induction c as [|d c IH]; simpl; [done|].
  destruct (has_id v d); [done|]. intros H. by rewrite (IH H).
Qed.

Lemma update_first_some v set c d :
  List.find (has_id v) c = Some d →
  ∃ l1 l2,
    c = l1 ++ d :: l2 ∧ List.find (has_id v) l1 = None ∧
    update_first v set c =
      ({| matchedCount := 1;
          modifiedCount := if decide (apply_set set d = d) then 0 else 1 |},
       l1 ++ apply_set set d :: l2).
Proof.
  induction c as [|e c IH]; simpl; [done|].
  destruct (has_id v e) eqn:He.
  - intros [= ->]. by exists [], c.
  - intros H. destruct (IH H) as (l1 & l2 & -> & Hl1 & Hup).
    exists (e :: l1), l2. simpl. by rewrite He, Hup.
Qed.

(** A field that the [$set] does not name keeps its value in every
    record. *)
Lemma update_first_field v set c k :
  set !! k = None →
  map (λ d : doc, d !! k) (update_first v set c).2 = map (λ d : doc, d !! k) c.
Proof.
  intros Hk. induction c as [|d c IH]; simpl; [done|].
  destruct (has_id v d).
  - simpl. by rewrite apply_set_lookup, Hk.
  - destruct (update_first v set c) as [r c']. simpl in *. by rewrite IH.
Qed.

Lemma delete_first_none v c :
  List.find (has_id v) c = None →
  delete_first v c = ({| deletedCount := 0 |}, c).
Proof.
  induction c as [|d c IH]; simpl; [done|].
  destruct (has_id v d); [done|]. intros H. by rewrite (IH H).
Qed.

Lemma delete_first_sublist v c : sublist (delete_first v c).2 c.
Proof.
  induction c as [|d c IH]; simpl; [constructor|].
  destruct (has_id v d); simpl.
  - by apply sublist_cons.
  - destruct (delete_first v c) as [r c']. simpl in *. by apply sublist_skip.
Qed.

Lemma find_none_no_match v (c : list doc) :
  List.find (has_id v) c = None ↔ ∀ d, d ∈ c → d !! "_id" ≠ Some v.
Proof.
  induction c as [|e c IH]; simpl.
  - split; [|done]. intros _ d Hd. by apply elem_of_nil in Hd.
  - unfold has_id at 1. destruct (bool_decide_reflect (e !! "_id" = Some v)) as [He|He].
    + split; [done|]. intros H. destruct (H e); [left|done].
    + rewrite IH. split.
      * intros H d [->|Hd]%elem_of_cons; auto.
      * intros H d Hd. apply H. by right.
Qed.

Lemma doc_forallb_true (f : string → value → bool) d :
  doc_forallb f d = true ↔ ∀ k x, d !! k = Some x → f k x = true.
Proof.
  unfold doc_forallb. rewrite forallb_forall. split.
  - intros H k x Hk. apply (H (k, x)).
    by apply list_elem_of_In, elem_of_map_to_list.
  - intros H [k x] Hin. apply H.
    by apply elem_of_map_to_list, list_elem_of_In.
Qed.

Lemma plain_name_facts k :
  plain_name k = true →
  k ≠ "" ∧ has_char NUL k = false ∧ dollar_name k = false.
Proof.
  unfold plain_name. rewrite !andb_true_iff, !negb_true_iff.
  intros [[[[Hk _] Hnul] Hdollar] _]. split; [|done].
  intros ->. discriminate Hk.
Qed.

Lemma plain_value_serializable (x : value) :
  plain_value x = true → serializable x = true.
Proof.
  revert x. fix plain_value_serializable 1. intros x.
  destruct x as [| | | | xs | fields | |]; simpl; try done.
  - induction xs as [|a xs IH]; simpl; [done|].
    rewrite !andb_true_iff. intros [Ha Hxs].
    split; [by apply plain_value_serializable | by apply IH].
  - induction fields as [|[k a] fields IH]; simpl; [done|].
    rewrite !andb_true_iff. intros [[Hk Ha] Hfs].
    apply plain_name_facts in Hk as (_ & -> & _).
    split; [by split; [|apply plain_value_serializable] | by apply IH].
Qed.

Lemma plain_value_id x :
  plain_value x = true → (∀ xs, x ≠ VArr xs) → id_refused x = false.
Proof.
  destruct x as [| | | | xs | fields | |]; simpl; try done.
  - intros _ H. by destruct (H xs).
  - intros H _. induction fields as [|[k a] fields IH]; simpl in *; [done|].
    apply andb_true_iff in H as [[Hk _]%andb_true_iff Hfs].
    apply plain_name_facts in Hk as (_ & _ & ->). by apply IH.
Qed.

Lemma storable_serializable d : storable d → serializable_doc d = true.
Proof.
  intros Hd. apply doc_forallb_true. intros k x Hk.
  destruct (Hd k x Hk) as (Hn & Hv & _).
  apply plain_name_facts in Hn as (_ & -> & _).
  by rewrite (plain_value_serializable _ Hv).
Qed.

Lemma storableb_storable d : storableb d = true → storable d.
Proof.
  intros H k x Hk. apply (proj1 (doc_forallb_true _ _) H) in Hk.
  apply andb_true_iff in Hk as [[Hn Hv]%andb_true_iff Hdepth].
  by apply Nat.ltb_lt in Hdepth.
Qed.

Lemma storable_delete d k : storable d → storable (delete k d).
Proof.
  intros Hd j x Hj. apply lookup_delete_Some in Hj as [_ Hj]. by apply Hd.
Qed.

(** A storable [$set] is not refused. *)
Lemma storable_set_accepted d : storable d → set_refusal d = None.
Proof.
  intros Hd. unfold set_refusal.
  rewrite (storable_serializable _ Hd). simpl.
  rewrite bool_decide_eq_false_2; [done|].
  intros [x Hx]. destruct (Hd "" x Hx) as (Hn & _). discriminate Hn.
Qed.

Lemma insert_refusal_free d c :
  insert_refusal d c = None →
  ∃ v, d !! "_id" = Some v ∧ existsb (has_id v) c = false.
Proof.
  unfold insert_refusal. destruct (negb (serializable_doc d)); [done|].
  destruct (d !! "_id") as [v|]; [|done].
  destruct (id_refused v); [done|].
  destruct (existsb (has_id v) c) eqn:E; [done|]. by exists v.
Qed.

Lemma insert_id_stamped gen d now :
  insert_id gen (<["submissionDate" := VDate now]> d) = insert_id gen d.
Proof. unfold insert_id. by rewrite lookup_insert_ne. Qed.

End Store.

(** ** The handlers, equation by equation *)

Section Handlers.

Implicit Types (w : world) (newGem updatedGem : doc).

Lemma get_gem_invalid gemId w :
  ObjectId.isValid gemId = false →
  get_gem gemId w = (Return invalid_id_response, w).
Proof. intros H. unfold get_gem, try_catch. by rewrite H. Qed.

Lemma put_gem_invalid gemId updatedGem w :
  ObjectId.isValid gemId = false →
  put_gem gemId updatedGem w = (Return invalid_id_response, w).
Proof. intros H. unfold put_gem, try_catch. by rewrite H. Qed.

Lemma delete_gem_invalid gemId w :
  ObjectId.isValid gemId = false →
  delete_gem gemId w = (Return invalid_id_response, w).
Proof. intros H. unfold delete_gem, try_catch. by rewrite H. Qed.

Lemma get_gem_valid gemId o w :
  ObjectId.parse gemId = Some o →
  get_gem gemId w =
    (Return match List.find (has_id (VObjectId o)) (hidden_gems w) with
            | None => {| status := 404; body := Message "Hidden gem not found" |}
            | Some g => {| status := 200; body := Gem g |}
            end,
     record_call (CallFindOne (VObjectId o)) w).
Proof.
  intros H. unfold get_gem, try_catch, bind, new_ObjectId, ObjectId.isValid.
  rewrite H. simpl.
  by destruct (List.find (has_id (VObjectId o)) (hidden_gems w)).
Qed.

Lemma put_gem_valid gemId o updatedGem w :
  ObjectId.parse gemId = Some o →
  set_refusal (delete "_id" updatedGem) = None →
  put_gem gemId updatedGem w =
    let (r, c) :=
      update_first (VObjectId o) (delete "_id" updatedGem) (hidden_gems w) in
    (Return (put_response r),
     {| hidden_gems := c;
        calls := calls w ++
          [CallUpdateOne (VObjectId o) (delete "_id" updatedGem)] |}).
Proof.
  intros H Hset.
  unfold put_gem, try_catch, bind, new_ObjectId, ObjectId.isValid, updateOne.
  rewrite H. simpl. rewrite Hset.
  destruct (update_first _ _ _) as [r c]. unfold put_response.
  destruct (matchedCount r =? 0); [done|]. by destruct (modifiedCount r =? 0).
Qed.

(** An update the store refuses is answered by the [catch]. *)
Lemma put_gem_refused gemId o updatedGem w e :
  ObjectId.parse gemId = Some o →
  set_refusal (delete "_id" updatedGem) = Some e →
  put_gem gemId updatedGem w =
    (Return update_failed_response,
     record_call (CallUpdateOne (VObjectId o) (delete "_id" updatedGem)) w).
Proof.
  intros H Hset.
  unfold put_gem, try_catch, bind, new_ObjectId, ObjectId.isValid, updateOne.
  rewrite H. simpl. by rewrite Hset.
Qed.

Lemma delete_gem_valid gemId o w :
  ObjectId.parse gemId = Some o →
  delete_gem gemId w =
    let (r, c) := delete_first (VObjectId o) (hidden_gems w) in
    (Return (delete_response r),
     {| hidden_gems := c; calls := calls w ++ [CallDeleteOne (VObjectId o)] |}).
Proof.
  intros H.
  unfold delete_gem, try_catch, bind, new_ObjectId, ObjectId.isValid, deleteOne.
  rewrite H. simpl.
  destruct (delete_first _ _) as [r c]. unfold delete_response.
  by destruct (deletedCount r =? 0).
Qed.

Lemma post_gem_rejected now gen newGem w :
  ¬ required_truthy newGem →
  post_gem now gen newGem w = (Return missing_fields_response, w).
Proof.
  intros H. unfold post_gem.
  destruct (js_not (newGem !! "title") || js_not (newGem !! "description")
            || js_not (newGem !! "category")) eqn:E; [done|].
  by apply required_check in E.
Qed.

Lemma stored_gem_id now gen newGem :
  stored_gem now gen newGem !! "_id" = Some (insert_id gen newGem).
Proof.
  unfold stored_gem, insert_id.
  destruct (newGem !! "_id") as [[]|] eqn:E;
    rewrite ?lookup_insert_eq, ?lookup_insert_ne; done.
Qed.

Lemma post_gem_accepted now gen newGem w :
  required_truthy newGem →
  insert_refusal (stored_gem now gen newGem) (hidden_gems w) = None →
  post_gem now gen newGem w =
    (Return {| status := 201;
               body := Added "Hidden gem added successfully"
                         (insert_id gen newGem) (stored_gem now gen newGem) |},
     {| hidden_gems := hidden_gems w ++ [stored_gem now gen newGem];
        calls := calls w ++
          [CallInsertOne (<["submissionDate" := VDate now]> newGem)] |}).
Proof.
  intros Hreq Hins. unfold post_gem.
  apply required_check in Hreq. rewrite Hreq.
  unfold try_catch, bind, insertOne.
  rewrite lookup_insert_ne by done.
  fold (stored_gem now gen newGem). by rewrite Hins, stored_gem_id.
Qed.

(** An insert the store refuses is answered by the [catch]. *)
Lemma post_gem_refused now gen newGem w e :
  required_truthy newGem →
  insert_refusal (stored_gem now gen newGem) (hidden_gems w) = Some e →
  post_gem now gen newGem w =
    (Return insert_failed_response,
     record_call (CallInsertOne (<["submissionDate" := VDate now]> newGem)) w).
Proof.
  intros Hreq Hins. unfold post_gem.
  apply required_check in Hreq. rewrite Hreq.
  unfold try_catch, bind, insertOne.
  rewrite lookup_insert_ne by done.
  fold (stored_gem now gen newGem). by rewrite Hins.
Qed.

Lemma stored_gem_lookup now gen newGem k x :
  stored_gem now gen newGem !! k = Some x →
  (k = "_id" ∧ x = VObjectId gen) ∨ (k = "submissionDate" ∧ x = VDate now) ∨
  newGem !! k = Some x.
Proof.
  unfold stored_gem. intros H.
  destruct (decide (k = "submissionDate")) as [-> | Hk].
  - right; left. split; [done|].
    destruct (newGem !! "_id") as [[]|];
      rewrite ?(lookup_insert_ne _ "_id") in H by done;
      rewrite lookup_insert_eq in H; congruence.
  - destruct (newGem !! "_id") as [[]|] eqn:E;
      try (rewrite lookup_insert_ne in H by done; auto).
    all: destruct (decide (k = "_id")) as [-> | Hk'];
      [rewrite lookup_insert_eq in H; left; split; congruence
      |rewrite !lookup_insert_ne in H by done; auto].
Qed.

(** A storable payload whose identifier is free is not refused. *)
Lemma storable_insert_accepted now gen newGem w :
  storable newGem → identifier_free gen newGem w →
  insert_refusal (stored_gem now gen newGem) (hidden_gems w) = None.
Proof.
  intros Hst [Harr Hfree]. unfold insert_refusal.
  assert (Hser : serializable_doc (stored_gem now gen newGem) = true).
  { apply doc_forallb_true. intros k x Hk.
    destruct (stored_gem_lookup _ _ _ _ _ Hk) as [[-> ->] | [[-> ->] | Hn]].
    - done.
    - done.
    - destruct (Hst k x Hn) as (Hp & Hv & _).
      apply plain_name_facts in Hp as (_ & -> & _).
      by rewrite (plain_value_serializable _ Hv). }
  rewrite Hser, stored_gem_id. simpl.
  assert (Hid : id_refused (insert_id gen newGem) = false).
  { unfold insert_id in *. destruct (newGem !! "_id") as [v|] eqn:E; [|done].
    destruct (Hst "_id" v E) as (_ & Hv & _).
    assert (Hv' : ∀ xs, v ≠ VArr xs) by (by destruct v).
    rewrite <- (plain_value_id v Hv Hv'). by destruct v. }
  rewrite Hid. apply find_none_no_match in Hfree.
  apply find_existsb in Hfree. by rewrite Hfree.
Qed.

End Handlers.

(** ** Creation *)

Section Creation.

Implicit Types (w : world) (newGem : doc).

Lemma stored_gem_date now gen newGem :
  stored_gem now gen newGem !! "submissionDate" = Some (VDate now).
Proof.
  unfold stored_gem.
  destruct (newGem !! "_id") as [[]|];
    rewrite ?(lookup_insert_ne _ "_id") by done; apply lookup_insert_eq.
Qed.

Lemma stored_gem_field now gen newGem k :
  k ≠ "_id" → k ≠ "submissionDate" →
  stored_gem now gen newGem !! k = newGem !! k.
Proof.
  intros H1 H2. unfold stored_gem.
  destruct (newGem !! "_id") as [[]|]; by rewrite !lookup_insert_ne.
Qed.

Lemma required_truthy_dec newGem :
  required_truthy newGem ∨ ¬ required_truthy newGem.
Proof.
  destruct (js_not (newGem !! "title") || js_not (newGem !! "description")
            || js_not (newGem !! "category")) eqn:E.
  - right. intros H. apply required_check in H. congruence.
  - left. by apply required_check.
Qed.

(** Whatever happens, creation leaves the records that exist as they are
    and adds at most the new one. *)
Lemma post_gem_collection now gen newGem w :
  hidden_gems (post_gem now gen newGem w).2 = hidden_gems w ∨
  hidden_gems (post_gem now gen newGem w).2 =
    hidden_gems w ++ [stored_gem now gen newGem].
Proof.
  destruct (required_truthy_dec newGem) as [Hreq | Hreq];
    [|left; by rewrite (post_gem_rejected _ _ _ _ Hreq)].
  destruct (insert_refusal (stored_gem now gen newGem) (hidden_gems w))
    as [e|] eqn:Hins.
  - left. by rewrite (post_gem_refused _ _ _ _ _ Hreq Hins).
  - right. by rewrite (post_gem_accepted _ _ _ _ Hreq Hins).
Qed.

Lemma duplicate_insert_refused (d : doc) (c : list doc) v :
  d !! "_id" = Some v → (∃ e, e ∈ c ∧ e !! "_id" = Some v) →
  ∃ err, insert_refusal d c = Some err.
Proof.
  intros Hd (e & He & Hev). unfold insert_refusal.
  destruct (negb (serializable_doc d)); [by eexists|]. rewrite Hd.
  destruct (id_refused v); [by eexists|].
  destruct (existsb (has_id v) c) eqn:Hex; [by eexists|].
  apply find_existsb in Hex.
  by destruct (proj1 (find_none_no_match _ _) Hex e He).
Qed.

(** C1, as the code has it: a payload whose three required fields are
    present and truthy is answered with status 201, the identifier under
    which the record is stored and the complete stored object, whenever the
    payload is one the store takes, [storable], and the identifier the record
    would be filed under is no array and not the identifier of a record; the
    stored object then carries the server's [submissionDate], whatever the
    payload held there, and otherwise the payload's fields.  When that
    identifier is the identifier of a record already, the answer is status
    500 and no record is added. *)
Theorem create_answers_201_when_store_accepts now gen newGem w :
  required_truthy newGem →
  (storable newGem → identifier_free gen newGem w →
     ∃ id stored w',
       post_gem now gen newGem w =
         (Return {| status := 201;
                    body := Added "Hidden gem added successfully" id stored |},
          w') ∧
       hidden_gems w' = hidden_gems w ++ [stored] ∧
       stored !! "_id" = Some id ∧
       stored !! "submissionDate" = Some (VDate now) ∧
       ∀ k, k ≠ "_id" → k ≠ "submissionDate" → stored !! k = newGem !! k) ∧
  ((∃ e, e ∈ hidden_gems w ∧ e !! "_id" = Some (insert_id gen newGem)) →
     ∃ w',
       post_gem now gen newGem w =
         (Return {| status := 500; body := Message "Failed to add hidden gem" |},
          w') ∧
       hidden_gems w' = hidden_gems w).
Proof.
  intros Hreq. split.
  - intros Hst Hfree.
    pose proof (storable_insert_accepted now _ _ _ Hst Hfree) as Hins.
    eexists _, _, _. split; [by apply post_gem_accepted|].
    repeat split.
    + apply stored_gem_id.
    + apply stored_gem_date.
    + apply stored_gem_field.
  - intros Hdup.
    destruct (duplicate_insert_refused (stored_gem now gen newGem) _ _
                (stored_gem_id now gen newGem) Hdup) as [err Herr].
    eexists. split; [by apply (post_gem_refused _ _ _ _ err)|done].
Qed.

(** What the store refuses of a valid payload besides a duplicate: an
    array as identifier, and a field name with a NUL byte. *)
Lemma create_refusals now gen newGem w :
  required_truthy newGem →
  (∃ xs, newGem !! "_id" = Some (VArr xs)) ∨
  (∃ k, is_Some (newGem !! k) ∧ has_char NUL k = true) →
  ∃ w',
    post_gem now gen newGem w = (Return insert_failed_response, w') ∧
    hidden_gems w' = hidden_gems w.
Proof.
  intros Hreq Hbad.
  assert (Href : ∃ e, insert_refusal (stored_gem now gen newGem)
                        (hidden_gems w) = Some e).
  { unfold insert_refusal.
    destruct (negb (serializable_doc (stored_gem now gen newGem))) eqn:E;
      [by eexists|].
    apply negb_false_iff in E.
    destruct Hbad as [[xs Hxs] | (k & [x Hx] & Hk)].
    - rewrite stored_gem_id. unfold insert_id. rewrite Hxs. by eexists.
    - assert (Hs : stored_gem now gen newGem !! k = Some x)
        by (rewrite stored_gem_field; [done| |]; by intros ->).
      apply (proj1 (doc_forallb_true _ _) E) in Hs. by rewrite Hk in Hs. }
  destruct Href as [e Href].
  rewrite (post_gem_refused _ _ _ _ e Hreq Href). by eexists.
Qed.

Lemma beach_required : required_truthy beach.
Proof. exists (VStr "Hidden Beach"), (VStr "Secluded cove"), (VStr "Nature"). done. Qed.

Lemma named_beach_required : required_truthy named_beach.
Proof. exists (VStr "Hidden Beach"), (VStr "Secluded cove"), (VStr "Nature"). done. Qed.

Lemma create_answers_201_witness :
  ∃ id stored w',
    post_gem 1700000000000 gen0 beach no_gems =
      (Return {| status := 201;
                 body := Added "Hidden gem added successfully" id stored |},
       w') ∧
    hidden_gems w' = hidden_gems no_gems ++ [stored] ∧
    stored !! "_id" = Some id ∧
    stored !! "submissionDate" = Some (VDate 1700000000000) ∧
    ∀ k, k ≠ "_id" → k ≠ "submissionDate" → stored !! k = beach !! k.
Proof.
  apply (create_answers_201_when_store_accepts
           1700000000000 gen0 beach no_gems beach_required).
  - apply storableb_storable. vm_compute. reflexivity.
  - split; [intros xs; vm_compute; discriminate|].
    intros e He. by apply elem_of_nil in He.
Defined.

(** C1, as the specification words it, fails: the payload [named_beach]
    has the three required fields, and sent to a collection that already
    holds a record with its identifier it is answered with status 500. *)
Lemma create_duplicate_id_counterexample :
  required_truthy named_beach ∧
  (post_gem 1700000000001 gen0 named_beach one_named_gem).1 =
    Return {| status := 500; body := Message "Failed to add hidden gem" |} ∧
  hidden_gems (post_gem 1700000000001 gen0 named_beach one_named_gem).2 =
    hidden_gems one_named_gem.
Proof. split; [apply named_beach_required|]. split; vm_compute; reflexivity. Qed.

(** C4: a payload in which one of [title], [description], [category] is
    missing or empty is answered with status 400 and the message that names
    the required fields, and the world is the one before the request: no
    record is persisted and no call reaches the store. *)
Theorem create_rejects_missing_fields now gen newGem w :
  missing_or_empty (newGem !! "title") ∨
  missing_or_empty (newGem !! "description") ∨
  missing_or_empty (newGem !! "category") →
  post_gem now gen newGem w =
    (Return {| status := 400;
               body := Message
                 "Missing required gem fields (title, description, category)" |},
     w).
Proof.
  intros H. apply post_gem_rejected. intros Hreq.
  apply required_check in Hreq.
  apply orb_false_iff in Hreq as [Htd Hc].
  apply orb_false_iff in Htd as [Ht Hd].
  destruct H as [H | [H | H]]; apply js_not_missing_or_empty in H; congruence.
Qed.

Lemma create_rejects_missing_fields_witness :
  post_gem 0 gen0 (delete "category" beach) one_gem =
    (Return {| status := 400;
               body := Message
                 "Missing required gem fields (title, description, category)" |},
     one_gem).
Proof.
  apply (create_rejects_missing_fields 0 gen0 (delete "category" beach) one_gem).
  right; right. left. reflexivity.
Defined.

(** C10: the required-field check is a truthiness test.  A payload in
    which one of the three fields is present but falsy (the empty string, 0,
    [false] or [null]) is answered exactly as one in which it is absent,
    with status 400 and an untouched world; and the check lets a payload
    through, to an answer other than 400, if and only if all three fields
    are present and truthy. *)
Theorem create_check_is_truthiness now gen newGem w :
  (∀ k v, k ∈ ["title"; "description"; "category"] →
     newGem !! k = Some v → falsy_json v →
     post_gem now gen newGem w = (Return missing_fields_response, w) ∧
     post_gem now gen (delete k newGem) w = (Return missing_fields_response, w)) ∧
  (required_truthy newGem ↔
     ∃ r w', post_gem now gen newGem w = (Return r, w') ∧ status r ≠ 400) ∧
  (¬ required_truthy newGem ↔
     post_gem now gen newGem w = (Return missing_fields_response, w)).
Proof.
  assert (Hrej : ∀ g : doc, ∀ k, k ∈ ["title"; "description"; "category"] →
            js_not (g !! k) = true → ¬ required_truthy g).
  { intros g k Hk Hjs Hreq. apply required_check in Hreq.
    apply orb_false_iff in Hreq as [Htd Hc].
    apply orb_false_iff in Htd as [Ht Hd].
    repeat (apply elem_of_cons in Hk as [-> | Hk]; [congruence|]).
    by apply elem_of_nil in Hk. }
  assert (Hdec : required_truthy newGem ∨ ¬ required_truthy newGem).
  { destruct (js_not (newGem !! "title") || js_not (newGem !! "description")
              || js_not (newGem !! "category")) eqn:E.
    - right. intros H. apply required_check in H. congruence.
    - left. by apply required_check. }
  assert (Hacc : required_truthy newGem →
            ∃ r w', post_gem now gen newGem w = (Return r, w') ∧ status r ≠ 400).
  { intros Hreq.
    destruct (insert_refusal (stored_gem now gen newGem) (hidden_gems w))
      as [e|] eqn:Hins.
    - rewrite (post_gem_refused _ _ _ _ _ Hreq Hins). by eexists _, _.
    - rewrite (post_gem_accepted _ _ _ _ Hreq Hins). by eexists _, _. }
  split; [|split].
  - intros k v Hk Hv Hf. split; apply post_gem_rejected.
    + apply (Hrej _ k Hk). rewrite Hv. by apply js_not_falsy_json.
    + apply (Hrej _ k Hk). by rewrite lookup_delete_eq.
  - split; [done|]. intros (r & w' & Hpost & Hstat).
    destruct Hdec as [|Hn]; [done|].
    rewrite (post_gem_rejected _ _ _ _ Hn) in Hpost. by injection Hpost as <- _.
  - split; [apply post_gem_rejected|]. intros Hpost Hreq.
    destruct (Hacc Hreq) as (r & w' & Hpost' & Hstat).
    rewrite Hpost in Hpost'. by injection Hpost' as <- _.
Qed.

Lemma create_check_is_truthiness_witness :
  post_gem 0 gen0 (<["title" := VNum 0]> beach) one_gem =
    (Return missing_fields_response, one_gem) ∧
  post_gem 0 gen0 (delete "title" (<["title" := VNum 0]> beach)) one_gem =
    (Return missing_fields_response, one_gem).
Proof.
  destruct (create_check_is_truthiness 0 gen0 (<["title" := VNum 0]> beach)
              one_gem) as (H & _ & _).
  apply (H "title" (VNum 0)).
  - left.
  - reflexivity.
  - right. left. reflexivity.
Defined.

End Creation.

(** ** Identifier checks *)

Section ById.

Implicit Types (w : world) (updatedGem : doc).

(** C5: an identifier string that is not in the store's identifier format
    is answered with status 400, "Invalid Gem ID format", by get, update and
    delete alike, and the world after the request is the world before it:
    no call on the store is recorded and no record changes. *)
Theorem malformed_id_is_rejected_before_the_store gemId updatedGem w :
  ObjectId.isValid gemId = false →
  get_gem gemId w =
    (Return {| status := 400; body := Message "Invalid Gem ID format" |}, w) ∧
  put_gem gemId updatedGem w =
    (Return {| status := 400; body := Message "Invalid Gem ID format" |}, w) ∧
  delete_gem gemId w =
    (Return {| status := 400; body := Message "Invalid Gem ID format" |}, w).
Proof.
  intros H. split; [|split].
  - by apply get_gem_invalid.
  - by apply put_gem_invalid.
  - by apply delete_gem_invalid.
Qed.

Lemma malformed_id_witness :
  get_gem "beach" one_gem = (Return invalid_id_response, one_gem) ∧
  put_gem "beach" beach one_gem = (Return invalid_id_response, one_gem) ∧
  delete_gem "beach" one_gem = (Return invalid_id_response, one_gem).
Proof.
  apply (malformed_id_is_rejected_before_the_store "beach" beach one_gem).
  reflexivity.
Defined.

(** C6, as the code has it: a well-formed identifier that no record of
    the collection has is answered with status 404 by get, by delete, and by
    an update whose body is [storable]; the collection after the request is
    the collection before it. *)
Theorem unknown_id_is_not_found gemId o updatedGem w :
  ObjectId.isValid gemId = true →
  ObjectId.parse gemId = Some o →
  (∀ d, d ∈ hidden_gems w → d !! "_id" ≠ Some (VObjectId o)) →
  (∃ w', get_gem gemId w =
           (Return {| status := 404; body := Message "Hidden gem not found" |},
            w') ∧
         hidden_gems w' = hidden_gems w) ∧
  (storable updatedGem →
   ∃ w', put_gem gemId updatedGem w =
           (Return {| status := 404; body := Message "Hidden gem not found" |},
            w') ∧
         hidden_gems w' = hidden_gems w) ∧
  (∃ w', delete_gem gemId w =
           (Return {| status := 404;
                      body := Message "Hidden gem not found or already deleted" |},
            w') ∧
         hidden_gems w' = hidden_gems w).
Proof.
  intros _ Hparse Hnone. apply find_none_no_match in Hnone.
  split; [|split].
  - eexists. rewrite (get_gem_valid _ _ _ Hparse), Hnone. done.
  - intros Hst. eexists.
    rewrite (put_gem_valid _ _ _ _ Hparse)
      by by apply storable_set_accepted, storable_delete.
    rewrite (update_first_none _ _ _ Hnone). done.
  - eexists. rewrite (delete_gem_valid _ _ _ Hparse),
      (delete_first_none _ _ Hnone). done.
Qed.

Lemma beach_storable : storable beach.
Proof. apply storableb_storable. vm_compute. reflexivity. Qed.

Lemma unknown_id_witness :
  (∃ w', get_gem "0123456789abcdef01234567" one_gem =
           (Return {| status := 404; body := Message "Hidden gem not found" |},
            w') ∧
         hidden_gems w' = hidden_gems one_gem) ∧
  (∃ w', put_gem "0123456789abcdef01234567" beach one_gem =
           (Return {| status := 404; body := Message "Hidden gem not found" |},
            w') ∧
         hidden_gems w' = hidden_gems one_gem) ∧
  (∃ w', delete_gem "0123456789abcdef01234567" one_gem =
           (Return {| status := 404;
                      body := Message "Hidden gem not found or already deleted" |},
            w') ∧
         hidden_gems w' = hidden_gems one_gem).
Proof.
  destruct (unknown_id_is_not_found "0123456789abcdef01234567"
           (default [] (ObjectId.parse "0123456789abcdef01234567")) beach one_gem)
    as (Hget & Hput & Hdel).
  - reflexivity.
  - reflexivity.
  - apply find_none_no_match. vm_compute. reflexivity.
  - split; [exact Hget|]. split; [|exact Hdel].
    apply Hput. apply storableb_storable. vm_compute. reflexivity.
Defined.

(** C6, as the specification words it, fails: under a well-formed
    identifier that no record has, an update whose body has a field with the
    empty name is answered with status 500, not 404. *)
Lemma unknown_id_update_counterexample :
  ObjectId.isValid "0123456789abcdef01234567" = true ∧
  List.find (has_id (VObjectId
               (default [] (ObjectId.parse "0123456789abcdef01234567"))))
    (hidden_gems one_gem) = None ∧
  (put_gem "0123456789abcdef01234567" nameless one_gem).1 =
    Return update_failed_response.
Proof. repeat split; vm_compute; reflexivity. Qed.

End ById.

(** ** Update *)

Section Updating.

Implicit Types (w : world) (updatedGem d : doc).

(** The fields an update supplies are those of its body, the identifier
    field aside. *)
Lemma stripped_lookup updatedGem k x :
  delete "_id" updatedGem !! k = Some x ↔ k ≠ "_id" ∧ updatedGem !! k = Some x.
Proof.
  rewrite lookup_delete. case_decide as Hk.
  - subst k. split; [done|]. by intros [? _].
  - split; [intros ?; split; congruence|]. by intros [_ ?].
Qed.

Lemma stripped_same updatedGem d :
  apply_set (delete "_id" updatedGem) d = d ↔
  ∀ k x, k ≠ "_id" → updatedGem !! k = Some x → d !! k = Some x.
Proof.
  rewrite apply_set_same. split.
  - intros H k x Hk Hx. apply H. by apply stripped_lookup.
  - intros H k x [Hk Hx]%stripped_lookup. by apply H.
Qed.

(** C2, as the code has it: an update under a well-formed identifier
    whose body is [storable] has exactly one of three outcomes.  (a) No record has the identifier: status 404, the collection
    as before.  (b) A record has it and every supplied field is in the record
    with the same value: status 200 with the "no changes" message, the
    collection as before.  (c) A record has it and some supplied field is
    not in the record with that value: status 200 with the "updated"
    message, and in the collection that record, and no other, has taken the
    supplied fields and kept the rest.  The supplied fields are the fields of
    the body other than the identifier field, which is taken out before the
    store is called. *)
Theorem update_three_outcomes gemId o updatedGem w :
  ObjectId.parse gemId = Some o →
  storable updatedGem →
  ∃ r w',
    put_gem gemId updatedGem w = (Return r, w') ∧
    ((List.find (has_id (VObjectId o)) (hidden_gems w) = None ∧
      r = not_found_response ∧
      hidden_gems w' = hidden_gems w)
     ∨
     (∃ d,
        List.find (has_id (VObjectId o)) (hidden_gems w) = Some d ∧
        (∀ k x, k ≠ "_id" → updatedGem !! k = Some x → d !! k = Some x) ∧
        r = no_changes_response ∧
        hidden_gems w' = hidden_gems w)
     ∨
     (∃ d d' l1 l2,
        List.find (has_id (VObjectId o)) (hidden_gems w) = Some d ∧
        (∃ k x, k ≠ "_id" ∧ updatedGem !! k = Some x ∧ d !! k ≠ Some x) ∧
        r = updated_response ∧
        hidden_gems w = l1 ++ d :: l2 ∧
        hidden_gems w' = l1 ++ d' :: l2 ∧
        (∀ k x, k ≠ "_id" → updatedGem !! k = Some x → d' !! k = Some x) ∧
        (∀ k, k = "_id" ∨ updatedGem !! k = None → d' !! k = d !! k))).
Proof.
  intros Hparse Hst.
  rewrite (put_gem_valid _ _ _ _ Hparse)
    by by apply storable_set_accepted, storable_delete.
  destruct (List.find (has_id (VObjectId o)) (hidden_gems w)) as [d|] eqn:Hfind.
  - destruct (update_first_some _ (delete "_id" updatedGem) _ _ Hfind)
      as (l1 & l2 & Hc & _ & Hup).
    rewrite Hup.
    eexists _, _. split; [reflexivity|]. right.
    unfold put_response; simpl. case_decide as Hsame; simpl.
    + left. exists d. split; [done|]. split; [by apply stripped_same|].
      split; [done|]. by rewrite Hsame.
    + right. exists d, (apply_set (delete "_id" updatedGem) d), l1, l2.
      split; [done|]. split.
      { rewrite apply_set_same in Hsame.
        change (¬ map_Forall (λ k x, d !! k = Some x)
                    (delete "_id" updatedGem)) in Hsame.
        apply map_not_Forall in Hsame
          as (k & x & [Hk Hx]%stripped_lookup & Hd); [|apply _].
        by exists k, x. }
      repeat split; try done.
      * intros k x Hk Hx. rewrite apply_set_lookup.
        by rewrite (proj2 (stripped_lookup updatedGem k x) (conj Hk Hx)).
      * intros k Hk. rewrite apply_set_lookup, lookup_delete.
        case_decide; [done|]. destruct Hk as [-> | ->]; done.
  - rewrite (update_first_none _ _ _ Hfind).
    eexists _, _. split; [reflexivity|]. by left.
Qed.

Lemma update_three_outcomes_witness :
  ∃ r w',
    put_gem (ObjectId.toHexString gen0)
            {[ "category" := VStr "Nature & Parks" ]} one_gem = (Return r, w') ∧
    r = updated_response ∧
    ∃ d', hidden_gems w' = [d'] ∧
          d' !! "category" = Some (VStr "Nature & Parks") ∧
          d' !! "title" = Some (VStr "Hidden Beach").
Proof.
  destruct (update_three_outcomes (ObjectId.toHexString gen0) gen0
              {[ "category" := VStr "Nature & Parks" ]} one_gem)
    as (r & w' & Hput & Hcases);
    [reflexivity | apply storableb_storable; vm_compute; reflexivity|].
  exists r, w'. split; [exact Hput|].
  vm_compute in Hput. injection Hput as <- <-.
  split; [reflexivity|]. eexists. split; [reflexivity|]. split; reflexivity.
Defined.

(** C2, as the specification words it, fails: there is a fourth outcome.
    Under the identifier of the record of [one_gem], an update whose body has
    a field with the empty name is answered with status 500, and the record
    stays as it is. *)
Lemma update_fourth_outcome_counterexample :
  ObjectId.parse (ObjectId.toHexString gen0) = Some gen0 ∧
  List.find (has_id (VObjectId gen0)) (hidden_gems one_gem) =
    Some (stored_gem 1700000000000 gen0 beach) ∧
  (put_gem (ObjectId.toHexString gen0) nameless one_gem).1 =
    Return {| status := 500; body := Message "Failed to update hidden gem" |} ∧
  hidden_gems (put_gem (ObjectId.toHexString gen0) nameless one_gem).2 =
    hidden_gems one_gem.
Proof. repeat split; vm_compute; reflexivity. Qed.

(** An update under a well-formed identifier is refused by the store or
    goes through to the first record with the identifier. *)
Lemma put_gem_cases gemId o updatedGem w :
  ObjectId.parse gemId = Some o →
  put_gem gemId updatedGem w =
    (Return update_failed_response,
     record_call (CallUpdateOne (VObjectId o) (delete "_id" updatedGem)) w) ∨
  put_gem gemId updatedGem w =
    (let (r, c) :=
       update_first (VObjectId o) (delete "_id" updatedGem) (hidden_gems w) in
     (Return (put_response r),
      {| hidden_gems := c;
         calls := calls w ++
           [CallUpdateOne (VObjectId o) (delete "_id" updatedGem)] |})).
Proof.
  intros Hparse.
  destruct (set_refusal (delete "_id" updatedGem)) as [e|] eqn:Hset.
  - left. by apply (put_gem_refused _ _ _ _ e).
  - right. by apply put_gem_valid.
Qed.

(** What an update does to one field of every record. *)
Lemma put_gem_field gemId updatedGem w k :
  k = "_id" ∨ updatedGem !! k = None →
  map (λ d : doc, d !! k) (hidden_gems (put_gem gemId updatedGem w).2) =
  map (λ d : doc, d !! k) (hidden_gems w).
Proof.
  intros Hk. destruct (ObjectId.parse gemId) as [o|] eqn:Hparse.
  - destruct (put_gem_cases _ _ updatedGem w Hparse) as [-> | ->]; [done|].
    pose proof (update_first_field (VObjectId o) (delete "_id" updatedGem)
                  (hidden_gems w) k) as H.
    destruct (update_first _ _ _) as [r c]. simpl in *. apply H.
    rewrite lookup_delete. case_decide; [done|]. by destruct Hk.
  - rewrite put_gem_invalid; [done|].
    unfold ObjectId.isValid. by rewrite Hparse.
Qed.

Lemma put_gem_calls gemId updatedGem w :
  calls (put_gem gemId updatedGem w).2 = calls w ∨
  ∃ v, calls (put_gem gemId updatedGem w).2 =
         calls w ++ [CallUpdateOne v (delete "_id" updatedGem)].
Proof.
  destruct (ObjectId.parse gemId) as [o|] eqn:Hparse.
  - right. exists (VObjectId o).
    destruct (put_gem_cases _ _ updatedGem w Hparse) as [-> | ->]; [done|].
    by destruct (update_first _ _ _).
  - left. rewrite put_gem_invalid; [done|].
    unfold ObjectId.isValid. by rewrite Hparse.
Qed.

Lemma serve_ids q w :
  ids (hidden_gems w) `prefix_of` ids (hidden_gems (serve q w).2).
Proof.
  destruct q as [now gen newGem | gemId updatedGem]; simpl.
  - destruct (post_gem_collection now gen newGem w) as [-> | ->]; [done|].
    unfold ids. rewrite map_app. by apply prefix_app_r.
  - unfold ids. rewrite put_gem_field; [done | by left].
Qed.

(** C7: no update reassigns an identifier.  Whatever the body holds,
    the [$set] that reaches the store has no identifier field, every record
    has after the request the identifier it had before, and so, along any
    sequence of create and update requests, every record of the collection
    stays in its place with the identifier it was created with. *)
Theorem identifier_never_reassigned :
  (∀ gemId updatedGem w,
     (calls (put_gem gemId updatedGem w).2 = calls w ∨
      ∃ v set, calls (put_gem gemId updatedGem w).2 =
                 calls w ++ [CallUpdateOne v set] ∧ set !! "_id" = None) ∧
     ids (hidden_gems (put_gem gemId updatedGem w).2) = ids (hidden_gems w)) ∧
  (∀ qs w, ids (hidden_gems w) `prefix_of` ids (hidden_gems (serve_all qs w))) ∧
  (∀ qs w i d,
     hidden_gems w !! i = Some d →
     ∃ d', hidden_gems (serve_all qs w) !! i = Some d' ∧
           d' !! "_id" = d !! "_id").
Proof.
  assert (Hseq : ∀ qs w,
            ids (hidden_gems w) `prefix_of` ids (hidden_gems (serve_all qs w))).
  { induction qs as [|q qs IH]; intros w; simpl; [done|].
    etrans; [apply serve_ids | apply IH]. }
  split; [|split; [exact Hseq|]].
  - intros gemId updatedGem w. split.
    + destruct (put_gem_calls gemId updatedGem w) as [H | [v H]]; [by left|].
      right. exists v, (delete "_id" updatedGem).
      split; [done | apply lookup_delete_eq].
    + apply put_gem_field. by left.
  - intros qs w i d Hi. destruct (Hseq qs w) as [rest Hrest].
    assert (Hl : ids (hidden_gems (serve_all qs w)) !! i = Some (d !! "_id")).
    { rewrite Hrest. apply lookup_app_l_Some.
      unfold ids. by rewrite list_lookup_fmap, Hi. }
    unfold ids in Hl. rewrite list_lookup_fmap in Hl.
    destruct (hidden_gems (serve_all qs w) !! i) as [d'|]; [|done].
    exists d'. split; [done|]. by injection Hl.
Qed.

Lemma identifier_never_reassigned_witness :
  ∃ d', hidden_gems
          (serve_all [Update (ObjectId.toHexString gen0)
                        {[ "_id" := VStr "other" ]};
                      Create 1700000000002 gen0 named_beach] one_gem) !! 0%nat
        = Some d' ∧
        d' !! "_id" = Some (VObjectId gen0).
Proof.
  destruct identifier_never_reassigned as (_ & _ & H).
  destruct (H [Update (ObjectId.toHexString gen0) {[ "_id" := VStr "other" ]};
               Create 1700000000002 gen0 named_beach]
              one_gem 0%nat (stored_gem 1700000000000 gen0 beach))
    as (d' & Hd' & Hid); [reflexivity|].
  exists d'. split; [exact Hd'|]. rewrite Hid. reflexivity.
Defined.

(** C9, as the code has it: updating a record with a [storable] body
    whose fields the record already has, each with the same value as the
    store holds it, is answered with status 200 and the "no changes" message,
    the collection stays as it is, and fetching the same identifier
    afterwards gives the record as it was. *)
Theorem update_with_identical_fields_changes_nothing gemId o d updatedGem w :
  ObjectId.parse gemId = Some o →
  List.find (has_id (VObjectId o)) (hidden_gems w) = Some d →
  storable updatedGem →
  (∀ k x, k ≠ "_id" → updatedGem !! k = Some x → d !! k = Some x) →
  ∃ w1 w2,
    put_gem gemId updatedGem w =
      (Return {| status := 200;
                 body := Message
                   "No changes made to the hidden gem (data was identical)" |},
       w1) ∧
    hidden_gems w1 = hidden_gems w ∧
    get_gem gemId w1 = (Return {| status := 200; body := Gem d |}, w2).
Proof.
  intros Hparse Hfind Hst Hsame.
  rewrite (put_gem_valid _ _ _ _ Hparse)
    by by apply storable_set_accepted, storable_delete.
  destruct (update_first_some _ (delete "_id" updatedGem) _ _ Hfind)
    as (l1 & l2 & Hc & _ & Hup).
  rewrite Hup. apply stripped_same in Hsame.
  unfold put_response; simpl. rewrite decide_True by done. simpl.
  eexists _, _. split; [reflexivity|]. simpl. rewrite Hsame, <- Hc.
  split; [done|].
  rewrite (get_gem_valid _ _ _ Hparse). simpl. by rewrite Hfind.
Qed.

Lemma update_with_identical_fields_witness :
  ∃ w1 w2,
    put_gem (ObjectId.toHexString gen0) beach one_gem =
      (Return {| status := 200;
                 body := Message
                   "No changes made to the hidden gem (data was identical)" |},
       w1) ∧
    hidden_gems w1 = hidden_gems one_gem ∧
    get_gem (ObjectId.toHexString gen0) w1 =
      (Return {| status := 200;
                 body := Gem (stored_gem 1700000000000 gen0 beach) |}, w2).
Proof.
  apply (update_with_identical_fields_changes_nothing
           (ObjectId.toHexString gen0) gen0
           (stored_gem 1700000000000 gen0 beach) beach one_gem).
  - reflexivity.
  - reflexivity.
  - apply storableb_storable. vm_compute. reflexivity.
  - intros k x Hk Hx. rewrite stored_gem_field; [exact Hx | exact Hk |].
    intros ->. discriminate Hx.
Defined.

(** C9, as the specification words it, fails, in two ways.  The record
    of [odd_gem] has a field with the empty name, and an update whose body is
    that field with that value is answered with status 500.  And the
    submission date of the record of [one_gem] is a date: whatever text a
    body gives for [submissionDate], the text the record shows in a response
    as any other, the update is answered "updated". *)
Lemma update_with_identical_fields_counterexample :
  (∃ d,
     List.find (has_id (VObjectId gen0)) (hidden_gems odd_gem) = Some d ∧
     (∀ k x, nameless !! k = Some x → d !! k = Some x) ∧
     (put_gem (ObjectId.toHexString gen0) nameless odd_gem).1 =
       Return {| status := 500;
                 body := Message "Failed to update hidden gem" |}) ∧
  (∀ text,
     (put_gem (ObjectId.toHexString gen0)
        {[ "submissionDate" := VStr text ]} one_gem).1 =
       Return {| status := 200;
                 body := Message "Hidden gem updated successfully" |}).
Proof.
  split.
  - eexists. split; [vm_compute; reflexivity|]. split.
    + intros k x Hk. unfold nameless in Hk.
      apply lookup_singleton_Some in Hk as [<- <-].
      vm_compute. reflexivity.
    + vm_compute. reflexivity.
  - intros text.
    assert (Hparse : ObjectId.parse (ObjectId.toHexString gen0) = Some gen0)
      by reflexivity.
    assert (Hset : set_refusal
              (delete "_id" ({[ "submissionDate" := VStr text ]} : doc)) = None).
    { unfold set_refusal.
      rewrite delete_singleton_ne by done.
      unfold serializable_doc, doc_forallb.
      rewrite map_to_list_singleton. simpl.
      rewrite bool_decide_eq_false_2; [done|].
      intros [x Hx]. by apply lookup_singleton_Some in Hx as [? _]. }
    rewrite (put_gem_valid _ _ _ _ Hparse Hset).
    assert (Hfind : List.find (has_id (VObjectId gen0)) (hidden_gems one_gem)
                    = Some (stored_gem 1700000000000 gen0 beach))
      by (vm_compute; reflexivity).
    destruct (update_first_some _
                (delete "_id" ({[ "submissionDate" := VStr text ]} : doc))
                _ _ Hfind) as (l1 & l2 & _ & _ & ->).
    unfold put_response; simpl. rewrite decide_False; [done|].
    intros Heq. apply (f_equal (λ d : doc, d !! "submissionDate")) in Heq.
    rewrite apply_set_lookup, lookup_delete_ne, lookup_singleton_eq in Heq
      by done.
    rewrite stored_gem_date in Heq. discriminate Heq.
Qed.

End Updating.

(** ** The submission date *)

Section SubmissionDate.

Implicit Types (w : world) (newGem updatedGem d : doc).

Lemma get_gem_collection gemId w :
  hidden_gems (get_gem gemId w).2 = hidden_gems w.
Proof.
  destruct (ObjectId.parse gemId) as [o|] eqn:Hparse.
  - by rewrite (get_gem_valid _ _ _ Hparse).
  - rewrite get_gem_invalid; [done|].
    unfold ObjectId.isValid. by rewrite Hparse.
Qed.

Lemma delete_gem_collection gemId w :
  sublist (hidden_gems (delete_gem gemId w).2) (hidden_gems w).
Proof.
  destruct (ObjectId.parse gemId) as [o|] eqn:Hparse.
  - rewrite (delete_gem_valid _ _ _ Hparse).
    pose proof (delete_first_sublist (VObjectId o) (hidden_gems w)) as H.
    by destruct (delete_first _ _).
  - rewrite delete_gem_invalid; [done|].
    unfold ObjectId.isValid. by rewrite Hparse.
Qed.

(** C3, as the code has it.  Creation stamps the stored record with the
    time the server reads, whatever the request body holds, and touches no
    other record; fetching and listing change no record and deleting only
    removes one; an update whose body is [storable] and has no
    [submissionDate] field leaves the submission date of every record as it
    is.  An update whose body is [storable] and has one is not held back: the
    record it matches takes the client's value. *)
Theorem submission_date_is_stamped_at_creation now gen newGem gemId updatedGem w :
  (hidden_gems (post_gem now gen newGem w).2 = hidden_gems w ∨
   ∃ stored,
     hidden_gems (post_gem now gen newGem w).2 = hidden_gems w ++ [stored] ∧
     stored !! "submissionDate" = Some (VDate now)) ∧
  hidden_gems (get_gem gemId w).2 = hidden_gems w ∧
  hidden_gems (get_gems w).2 = hidden_gems w ∧
  sublist (hidden_gems (delete_gem gemId w).2) (hidden_gems w) ∧
  (storable updatedGem →
   updatedGem !! "submissionDate" = None →
   dates (hidden_gems (put_gem gemId updatedGem w).2) = dates (hidden_gems w)) ∧
  (∀ x o d,
     storable updatedGem →
     updatedGem !! "submissionDate" = Some x →
     ObjectId.parse gemId = Some o →
     List.find (has_id (VObjectId o)) (hidden_gems w) = Some d →
     ∃ l1 l2 d',
       hidden_gems w = l1 ++ d :: l2 ∧
       hidden_gems (put_gem gemId updatedGem w).2 = l1 ++ d' :: l2 ∧
       d' !! "submissionDate" = Some x).
Proof.
  split; [|split; [|split; [|split; [|split]]]].
  - destruct (post_gem_collection now gen newGem w) as [H | H]; [by left|].
    right. eexists. split; [exact H | apply stored_gem_date].
  - apply get_gem_collection.
  - reflexivity.
  - apply delete_gem_collection.
  - intros _ H. apply put_gem_field. by right.
  - intros x o d Hst Hx Hparse Hfind.
    rewrite (put_gem_valid _ _ _ _ Hparse)
      by by apply storable_set_accepted, storable_delete.
    destruct (update_first_some _ (delete "_id" updatedGem) _ _ Hfind)
      as (l1 & l2 & Hc & _ & Hup).
    rewrite Hup. eexists l1, l2, _. split; [done|]. split; [done|].
    rewrite apply_set_lookup, lookup_delete_ne by done. by rewrite Hx.
Qed.

Lemma submission_date_witness :
  dates (hidden_gems (put_gem (ObjectId.toHexString gen0)
                        {[ "category" := VStr "Nature & Parks" ]} one_gem).2)
  = dates (hidden_gems one_gem).
Proof.
  apply (submission_date_is_stamped_at_creation
           0 gen0 beach (ObjectId.toHexString gen0)
           {[ "category" := VStr "Nature & Parks" ]} one_gem).
  - apply storableb_storable. vm_compute. reflexivity.
  - reflexivity.
Defined.

(** C3, as the specification words it, fails: the record of [one_gem]
    was stamped at creation, and an update that names [submissionDate] is
    answered "updated" and leaves the client's value in the record. *)
Lemma submission_date_overwritten_counterexample :
  dates (hidden_gems one_gem) = [Some (VDate 1700000000000)] ∧
  (put_gem (ObjectId.toHexString gen0)
     {[ "submissionDate" := VStr "1999-01-01" ]} one_gem).1 =
    Return updated_response ∧
  dates (hidden_gems (put_gem (ObjectId.toHexString gen0)
                        {[ "submissionDate" := VStr "1999-01-01" ]} one_gem).2)
  = [Some (VStr "1999-01-01")].
Proof. repeat split; vm_compute; reflexivity. Qed.

End SubmissionDate.

(** ** Creating, then fetching *)

Section RoundTrip.

Implicit Types (w : world) (newGem : doc).

Lemma find_snoc v (c : list doc) (d : doc) :
  List.find (has_id v) c = None → d !! "_id" = Some v →
  List.find (has_id v) (c ++ [d]) = Some d.
Proof.
  intros Hc Hd. induction c as [|e c IH]; simpl in *.
  - unfold has_id. by rewrite bool_decide_eq_true_2.
  - destruct (has_id v e); [done|]. by apply IH.
Qed.

(** C8, as the code has it: for a payload that leaves the identifier to
    the store (it has no [_id], or [null] there), whenever the creation is
    answered with status 201, the identifier returned is the generated one,
    fetching its text right away is answered with status 200 and the very
    object the creation returned, and that object has every field of the
    payload as the client sent it, [_id] and [submissionDate] aside.  The
    creation is so answered when the payload is valid and [storable] and no
    record has the generated identifier yet. *)
Theorem create_then_fetch now gen newGem w :
  newGem !! "_id" = None ∨ newGem !! "_id" = Some VNull →
  ObjectId.wf gen →
  (∀ id stored w1,
     post_gem now gen newGem w =
       (Return {| status := 201;
                  body := Added "Hidden gem added successfully" id stored |},
        w1) →
     id = VObjectId gen ∧
     (∃ w2, get_gem (ObjectId.toHexString gen) w1 =
              (Return {| status := 200; body := Gem stored |}, w2)) ∧
     ∀ k x, newGem !! k = Some x →
            k ≠ "_id" → k ≠ "submissionDate" → stored !! k = Some x) ∧
  (required_truthy newGem → storable newGem →
   (∀ d, d ∈ hidden_gems w → d !! "_id" ≠ Some (VObjectId gen)) →
   ∃ stored w1,
     post_gem now gen newGem w =
       (Return {| status := 201;
                  body := Added "Hidden gem added successfully"
                            (VObjectId gen) stored |},
        w1)).
Proof.
  intros Hid Hwf.
  assert (Hins : insert_id gen newGem = VObjectId gen).
  { unfold insert_id. by destruct Hid as [-> | ->]. }
  split.
  - intros id stored w1 Hpost.
    destruct (required_truthy_dec newGem) as [Hreq | Hreq];
      [|by rewrite (post_gem_rejected _ _ _ _ Hreq) in Hpost].
    destruct (insert_refusal (stored_gem now gen newGem) (hidden_gems w))
      as [e|] eqn:Href;
      [by rewrite (post_gem_refused _ _ _ _ _ Hreq Href) in Hpost|].
    rewrite (post_gem_accepted _ _ _ _ Hreq Href), Hins in Hpost.
    injection Hpost as <- <- <-.
    apply insert_refusal_free in Href as (v & Hv & Hfree).
    rewrite stored_gem_id, Hins in Hv. injection Hv as <-.
    apply find_existsb in Hfree.
    split; [done|]. split.
    + eexists. rewrite (get_gem_valid _ gen) by by apply parse_toHexString.
      simpl. rewrite (find_snoc _ _ _ Hfree); [done|].
      by rewrite stored_gem_id, Hins.
    + intros k x Hk H1 H2. by rewrite stored_gem_field.
  - intros Hreq Hst Hfree.
    assert (Hfr : identifier_free gen newGem w).
    { split; rewrite Hins; [done | exact Hfree]. }
    rewrite (post_gem_accepted _ _ _ _ Hreq
               (storable_insert_accepted now _ _ _ Hst Hfr)), Hins.
    by eexists _, _.
Qed.

Lemma create_then_fetch_witness :
  (∃ w2, get_gem (ObjectId.toHexString gen0) one_gem =
           (Return {| status := 200;
                      body := Gem (stored_gem 1700000000000 gen0 beach) |},
            w2)) ∧
  ∃ stored w1,
    post_gem 1700000000000 gen0 beach no_gems =
      (Return {| status := 201;
                 body := Added "Hidden gem added successfully"
                           (VObjectId gen0) stored |},
       w1).
Proof.
  destruct (create_then_fetch 1700000000000 gen0 beach no_gems)
    as [Hfetch Hpost].
  - left. reflexivity.
  - reflexivity.
  - split.
    + apply (Hfetch (VObjectId gen0) (stored_gem 1700000000000 gen0 beach)
               one_gem).
      vm_compute. reflexivity.
    + apply Hpost.
      * apply beach_required.
      * apply beach_storable.
      * intros d Hd. by apply elem_of_nil in Hd.
Defined.

(** C8, as the specification words it, fails: [named_beach] is a valid
    payload, its creation is answered with status 201 and the identifier it
    brought, fetching that identifier is answered with status 400, and no
    identifier at all fetches the record. *)
Lemma create_then_fetch_counterexample :
  required_truthy named_beach ∧
  post_gem 1700000000000 gen0 named_beach no_gems =
    (Return {| status := 201;
               body := Added "Hidden gem added successfully" (VStr "beach")
                         (stored_gem 1700000000000 gen0 named_beach) |},
     one_named_gem) ∧
  (get_gem "beach" one_named_gem).1 = Return invalid_id_response ∧
  ∀ gemId r w', get_gem gemId one_named_gem = (Return r, w') → status r ≠ 200.
Proof.
  split; [apply named_beach_required|].
  split; [vm_compute; reflexivity|].
  split; [vm_compute; reflexivity|].
  intros gemId r w'. destruct (ObjectId.parse gemId) as [o|] eqn:Hparse.
  - rewrite (get_gem_valid _ _ _ Hparse).
    replace (hidden_gems one_named_gem)
      with [stored_gem 1700000000000 gen0 named_beach]
      by (vm_compute; reflexivity).
    simpl. unfold has_id. rewrite stored_gem_id.
    rewrite bool_decide_eq_false_2 by (vm_compute; discriminate).
    by intros [= <- _].
  - rewrite get_gem_invalid by (unfold ObjectId.isValid; by rewrite Hparse).
    generalize one_named_gem. by intros w0 [= <- _].
Qed.

End RoundTrip.

(** ** More on the collection *)

Section Collection.

Implicit Types (v : value) (d e set : doc) (c : list doc).

Lemma find_middle v (l1 l2 : list doc) e :
  List.find (has_id v) l1 = None → e !! "_id" = Some v →
  List.find (has_id v) (l1 ++ e :: l2) = Some e.
Proof.
  intros Hl1 He. induction l1 as [|d l1 IH]; simpl in *.
  - unfold has_id. by rewrite bool_decide_eq_true_2.
  - destruct (has_id v d); [done|]. by apply IH.
Qed.

(** Where identifiers are unique, the record with an identifier is the
    one a lookup by that identifier finds. *)
Lemma find_unique v c d :
  NoDup (ids c) → d ∈ c → d !! "_id" = Some v →
  List.find (has_id v) c = Some d.
Proof.
  intros Hnd Hin Hd. induction c as [|e c IH]; [by apply elem_of_nil in Hin|].
  simpl in *. apply NoDup_cons in Hnd as [Hne Hnd].
  unfold has_id at 1. destruct (bool_decide_reflect (e !! "_id" = Some v)) as [He|He].
  - apply elem_of_cons in Hin as [-> | Hin]; [done|].
    destruct Hne. rewrite He, <- Hd. by apply (list_elem_of_fmap_2 (λ d : doc, d !! "_id")).
  - apply elem_of_cons in Hin as [-> | Hin]; [done|]. by apply IH.
Qed.

Lemma delete_first_some v c d :
  List.find (has_id v) c = Some d →
  ∃ l1 l2,
    c = l1 ++ d :: l2 ∧ List.find (has_id v) l1 = None ∧
    delete_first v c = ({| deletedCount := 1 |}, l1 ++ l2).
Proof.
  induction c as [|e c IH]; simpl; [done|].
  destruct (has_id v e) eqn:He.
  - intros [= ->]. by exists [], c.
  - intros H. destruct (IH H) as (l1 & l2 & -> & Hl1 & Hdel).
    exists (e :: l1), l2. simpl. by rewrite He, Hdel.
Qed.

(** Where identifiers are unique, nothing with the identifier is left
    once the first record with it is gone. *)
Lemma delete_first_gone v c :
  NoDup (ids c) → List.find (has_id v) (delete_first v c).2 = None.
Proof.
  intros Hnd. induction c as [|e c IH]; simpl; [done|].
  apply NoDup_cons in Hnd as [Hne Hnd].
  destruct (has_id v e) eqn:He; simpl.
  - apply find_none_no_match. intros d Hd Hdv. destruct Hne.
    unfold has_id in He. apply bool_decide_eq_true in He. rewrite He, <- Hdv.
    by apply (list_elem_of_fmap_2 (λ d : doc, d !! "_id")).
  - specialize (IH Hnd). destruct (delete_first v c) as [r c']. simpl in *.
    by rewrite He.
Qed.

Lemma delete_first_snoc v c d :
  List.find (has_id v) c = None → d !! "_id" = Some v →
  delete_first v (c ++ [d]) = ({| deletedCount := 1 |}, c).
Proof.
  intros Hc Hd. induction c as [|e c IH]; simpl in *.
  - unfold has_id. by rewrite bool_decide_eq_true_2.
  - destruct (has_id v e); [done|]. by rewrite IH.
Qed.

Lemma apply_set_keeps_fields set d k :
  is_Some (d !! k) → is_Some (apply_set set d !! k).
Proof. intros H. rewrite apply_set_lookup. by destruct (set !! k). Qed.

Lemma update_first_complete v set c :
  Forall complete c → Forall complete (update_first v set c).2.
Proof.
  induction 1 as [|d c Hd Hc IH]; simpl; [done|].
  destruct (has_id v d); simpl.
  - constructor; [|done]. destruct Hd as (? & ? & ? & ? & ?).
    repeat split; by apply apply_set_keeps_fields.
  - destruct (update_first v set c) as [r c']. simpl in *. by constructor.
Qed.

Lemma apply_set_twice set d : apply_set set (apply_set set d) = apply_set set d.
Proof.
  apply apply_set_same. intros k x Hk. by rewrite apply_set_lookup, Hk.
Qed.

End Collection.

(** ** Deletion *)

Section Deleting.

Implicit Types (w : world) (d : doc).

(** X1: deleting under the identifier of a record is answered with
    status 200, "Hidden gem deleted successfully", and takes exactly that
    record out of the collection; the records before it and after it stay,
    in their order. *)
Theorem delete_removes_the_record gemId o d w :
  ObjectId.parse gemId = Some o →
  List.find (has_id (VObjectId o)) (hidden_gems w) = Some d →
  ∃ l1 l2 w',
    delete_gem gemId w = (Return deleted_response, w') ∧
    hidden_gems w = l1 ++ d :: l2 ∧
    hidden_gems w' = l1 ++ l2.
Proof.
  intros Hparse Hfind. rewrite (delete_gem_valid _ _ _ Hparse).
  destruct (delete_first_some _ _ _ Hfind) as (l1 & l2 & Hc & _ & Hdel).
  rewrite Hdel. by exists l1, l2; eexists.
Qed.

Lemma delete_removes_the_record_witness :
  ∃ l1 l2 w',
    delete_gem (ObjectId.toHexString gen0) one_gem =
      (Return deleted_response, w') ∧
    hidden_gems one_gem = l1 ++ stored_gem 1700000000000 gen0 beach :: l2 ∧
    hidden_gems w' = l1 ++ l2.
Proof.
  apply (delete_removes_the_record (ObjectId.toHexString gen0) gen0
           (stored_gem 1700000000000 gen0 beach) one_gem).
  - reflexivity.
  - reflexivity.
Defined.

(** X2: in a collection whose identifiers are unique, once a delete
    request for an identifier has been served, whether it found a record or
    not, that identifier is answered with status 404 by get, by an update
    whose body is [storable] and by a second delete. *)
Theorem deleted_record_is_gone gemId o updatedGem w :
  ObjectId.parse gemId = Some o →
  NoDup (ids (hidden_gems w)) →
  storable updatedGem →
  (get_gem gemId (delete_gem gemId w).2).1 = Return not_found_response ∧
  (put_gem gemId updatedGem (delete_gem gemId w).2).1 =
    Return not_found_response ∧
  (delete_gem gemId (delete_gem gemId w).2).1 =
    Return already_deleted_response.
Proof.
  intros Hparse Hnd Hst.
  pose proof (delete_first_gone (VObjectId o) _ Hnd) as Hgone.
  rewrite (delete_gem_valid _ _ _ Hparse).
  destruct (delete_first (VObjectId o) (hidden_gems w)) as [r c]. simpl in Hgone.
  split; [|split].
  - rewrite (get_gem_valid _ _ _ Hparse). simpl. by rewrite Hgone.
  - rewrite (put_gem_valid _ _ _ _ Hparse)
      by by apply storable_set_accepted, storable_delete.
    simpl. by rewrite (update_first_none _ _ _ Hgone).
  - rewrite (delete_gem_valid _ _ _ Hparse). simpl.
    by rewrite (delete_first_none _ _ Hgone).
Qed.

Lemma deleted_record_is_gone_witness :
  (get_gem (ObjectId.toHexString gen0)
     (delete_gem (ObjectId.toHexString gen0) one_gem).2).1 =
    Return not_found_response ∧
  (put_gem (ObjectId.toHexString gen0) beach
     (delete_gem (ObjectId.toHexString gen0) one_gem).2).1 =
    Return not_found_response ∧
  (delete_gem (ObjectId.toHexString gen0)
     (delete_gem (ObjectId.toHexString gen0) one_gem).2).1 =
    Return already_deleted_response.
Proof.
  apply (deleted_record_is_gone (ObjectId.toHexString gen0) gen0 beach one_gem).
  - reflexivity.
  - vm_compute. apply NoDup_singleton.
  - apply storableb_storable. vm_compute. reflexivity.
Defined.

(** X3: when a creation that left the identifier to the store has been
    answered with status 201, deleting by the identifier it returned is
    answered with status 200 and leaves the collection exactly as it was
    before the creation. *)
Theorem create_then_delete_restores now gen newGem w id stored w1 :
  post_gem now gen newGem w =
    (Return {| status := 201;
               body := Added "Hidden gem added successfully" id stored |},
     w1) →
  newGem !! "_id" = None ∨ newGem !! "_id" = Some VNull →
  ObjectId.wf gen →
  id = VObjectId gen ∧
  ∃ w2,
    delete_gem (ObjectId.toHexString gen) w1 = (Return deleted_response, w2) ∧
    hidden_gems w2 = hidden_gems w.
Proof.
  intros Hpost Hid Hwf.
  assert (Hins : insert_id gen newGem = VObjectId gen).
  { unfold insert_id. by destruct Hid as [-> | ->]. }
  destruct (required_truthy_dec newGem) as [Hreq | Hreq];
    [|by rewrite (post_gem_rejected _ _ _ _ Hreq) in Hpost].
  destruct (insert_refusal (stored_gem now gen newGem) (hidden_gems w))
    as [e|] eqn:Href;
    [by rewrite (post_gem_refused _ _ _ _ _ Hreq Href) in Hpost|].
  rewrite (post_gem_accepted _ _ _ _ Hreq Href), Hins in Hpost.
  injection Hpost as <- <- <-.
  apply insert_refusal_free in Href as (v & Hv & Hfree).
  rewrite stored_gem_id, Hins in Hv. injection Hv as <-.
  apply find_existsb in Hfree.
  split; [done|]. eexists.
  rewrite (delete_gem_valid _ gen) by by apply parse_toHexString.
  simpl. rewrite (delete_first_snoc _ _ _ Hfree); [done|].
  by rewrite stored_gem_id, Hins.
Qed.

Lemma create_then_delete_restores_witness :
  VObjectId gen0 = VObjectId gen0 ∧
  ∃ w2,
    delete_gem (ObjectId.toHexString gen0) one_gem =
      (Return deleted_response, w2) ∧
    hidden_gems w2 = hidden_gems no_gems.
Proof.
  apply (create_then_delete_restores 1700000000000 gen0 beach no_gems
           (VObjectId gen0) (stored_gem 1700000000000 gen0 beach) one_gem).
  - vm_compute. reflexivity.
  - left. reflexivity.
  - reflexivity.
Defined.

End Deleting.

(** ** Reading back *)

Section ReadingBack.

Implicit Types (w : world) (d updatedGem newGem : doc).

(** X4: after an update with a [storable] body under the identifier of a
    record, whichever of the two success messages it was answered with,
    fetching the same identifier returns the record with every supplied field
    at the supplied value and every other field, the identifier among them,
    as it was. *)
Theorem update_then_fetch gemId o d updatedGem w :
  ObjectId.parse gemId = Some o →
  List.find (has_id (VObjectId o)) (hidden_gems w) = Some d →
  storable updatedGem →
  ∃ r w1 w2 d',
    put_gem gemId updatedGem w = (Return r, w1) ∧
    status r = 200 ∧
    get_gem gemId w1 = (Return {| status := 200; body := Gem d' |}, w2) ∧
    (∀ k x, k ≠ "_id" → updatedGem !! k = Some x → d' !! k = Some x) ∧
    (∀ k, k = "_id" ∨ updatedGem !! k = None → d' !! k = d !! k).
Proof.
  intros Hparse Hfind Hst.
  assert (Hkeep : ∀ k, k = "_id" ∨ updatedGem !! k = None →
            apply_set (delete "_id" updatedGem) d !! k = d !! k).
  { intros k Hk. rewrite apply_set_lookup, lookup_delete.
    case_decide; [done|]. destruct Hk as [-> | ->]; done. }
  pose proof (storable_set_accepted _ (storable_delete _ "_id" Hst)) as Hset.
  rewrite (put_gem_valid _ _ _ _ Hparse Hset).
  destruct (update_first_some _ (delete "_id" updatedGem) _ _ Hfind)
    as (l1 & l2 & Hc & Hl1 & Hup).
  rewrite Hup.
  eexists _, _, _, (apply_set (delete "_id" updatedGem) d).
  split; [reflexivity|]. split.
  { unfold put_response; simpl. by case_decide. }
  split; [|split; [|exact Hkeep]].
  - rewrite (get_gem_valid _ _ _ Hparse). simpl.
    rewrite (find_middle _ _ _ _ Hl1); [done|].
    rewrite Hkeep by by left. by apply find_has_id in Hfind.
  - intros k x Hk Hx. rewrite apply_set_lookup.
    by rewrite (proj2 (stripped_lookup updatedGem k x) (conj Hk Hx)).
Qed.

Lemma update_then_fetch_witness :
  ∃ r w1 w2 d',
    put_gem (ObjectId.toHexString gen0)
      {[ "category" := VStr "Nature & Parks" ]} one_gem = (Return r, w1) ∧
    status r = 200 ∧
    get_gem (ObjectId.toHexString gen0) w1 =
      (Return {| status := 200; body := Gem d' |}, w2) ∧
    (∀ k x, k ≠ "_id" →
       ({[ "category" := VStr "Nature & Parks" ]} : doc) !! k = Some x →
       d' !! k = Some x) ∧
    (∀ k, k = "_id" ∨
          ({[ "category" := VStr "Nature & Parks" ]} : doc) !! k = None →
          d' !! k = stored_gem 1700000000000 gen0 beach !! k).
Proof.
  apply (update_then_fetch (ObjectId.toHexString gen0) gen0
           (stored_gem 1700000000000 gen0 beach)
           {[ "category" := VStr "Nature & Parks" ]} one_gem).
  - reflexivity.
  - reflexivity.
  - apply storableb_storable. vm_compute. reflexivity.
Defined.

(** X5: sending the same update, with a [storable] body, twice under the
    identifier of a record changes nothing the second time: the second
    request is answered with the "no changes" message and leaves the
    collection as the first request left it. *)
Theorem update_twice gemId o d updatedGem w :
  ObjectId.parse gemId = Some o →
  List.find (has_id (VObjectId o)) (hidden_gems w) = Some d →
  storable updatedGem →
  ∃ w2,
    put_gem gemId updatedGem (put_gem gemId updatedGem w).2 =
      (Return no_changes_response, w2) ∧
    hidden_gems w2 = hidden_gems (put_gem gemId updatedGem w).2.
Proof.
  intros Hparse Hfind Hst.
  pose proof (storable_set_accepted _ (storable_delete _ "_id" Hst)) as Hset.
  rewrite (put_gem_valid gemId o updatedGem w Hparse Hset).
  destruct (update_first_some _ (delete "_id" updatedGem) _ _ Hfind)
    as (l1 & l2 & Hc & Hl1 & Hup).
  rewrite Hup. simpl. rewrite (put_gem_valid _ _ _ _ Hparse Hset). simpl.
  pose proof (apply_set_twice (delete "_id" updatedGem) d) as Htwice.
  assert (Hfind' : List.find (has_id (VObjectId o))
                     (l1 ++ apply_set (delete "_id" updatedGem) d :: l2)
                   = Some (apply_set (delete "_id" updatedGem) d)).
  { apply find_middle; [done|].
    rewrite apply_set_lookup, lookup_delete_eq. by apply find_has_id in Hfind. }
  destruct (update_first_some _ (delete "_id" updatedGem) _ _ Hfind')
    as (k1 & k2 & Hc' & _ & Hup').
  rewrite Hup', !Htwice.
  unfold put_response; simpl. rewrite decide_True by done. simpl.
  eexists. split; [reflexivity|]. simpl. by rewrite Hc'.
Qed.

Lemma update_twice_witness :
  ∃ w2,
    put_gem (ObjectId.toHexString gen0) {[ "category" := VStr "Nature & Parks" ]}
      (put_gem (ObjectId.toHexString gen0)
         {[ "category" := VStr "Nature & Parks" ]} one_gem).2 =
      (Return no_changes_response, w2) ∧
    hidden_gems w2 =
      hidden_gems (put_gem (ObjectId.toHexString gen0)
                     {[ "category" := VStr "Nature & Parks" ]} one_gem).2.
Proof.
  apply (update_twice (ObjectId.toHexString gen0) gen0
           (stored_gem 1700000000000 gen0 beach)
           {[ "category" := VStr "Nature & Parks" ]} one_gem).
  - reflexivity.
  - reflexivity.
  - apply storableb_storable. vm_compute. reflexivity.
Defined.

(** X6: in a collection whose identifiers are unique, every record whose
    identifier is the one a well-formed identifier string denotes is fetched
    under that string: status 200 and the record itself, the collection
    untouched. *)
Theorem fetch_returns_the_record gemId o d w :
  ObjectId.parse gemId = Some o →
  NoDup (ids (hidden_gems w)) →
  d ∈ hidden_gems w →
  d !! "_id" = Some (VObjectId o) →
  ∃ w',
    get_gem gemId w = (Return {| status := 200; body := Gem d |}, w') ∧
    hidden_gems w' = hidden_gems w.
Proof.
  intros Hparse Hnd Hin Hd.
  rewrite (get_gem_valid _ _ _ Hparse), (find_unique _ _ _ Hnd Hin Hd).
  by eexists.
Qed.

Lemma fetch_returns_the_record_witness :
  ∃ w',
    get_gem "AAAAAAAAAAAAAAAAAAAAAAAA" one_gem =
      (Return {| status := 200;
                 body := Gem (stored_gem 1700000000000 gen0 beach) |}, w') ∧
    hidden_gems w' = hidden_gems one_gem.
Proof.
  apply (fetch_returns_the_record "AAAAAAAAAAAAAAAAAAAAAAAA" gen0
           (stored_gem 1700000000000 gen0 beach) one_gem).
  - reflexivity.
  - vm_compute. apply NoDup_singleton.
  - left.
  - reflexivity.
Defined.

(** X7: after a creation that was answered with status 201, listing the
    collection is answered with status 200 and the records that were there
    before, in their order, followed by the object the creation returned. *)
Theorem list_after_create now gen newGem w id stored w1 :
  post_gem now gen newGem w =
    (Return {| status := 201;
               body := Added "Hidden gem added successfully" id stored |},
     w1) →
  ∃ w2,
    get_gems w1 =
      (Return {| status := 200; body := Gems (hidden_gems w ++ [stored]) |},
       w2) ∧
    hidden_gems w2 = hidden_gems w1.
Proof.
  intros Hpost.
  destruct (required_truthy_dec newGem) as [Hreq | Hreq].
  - destruct (insert_refusal (stored_gem now gen newGem) (hidden_gems w))
      as [e|] eqn:Href.
    + rewrite (post_gem_refused _ _ _ _ _ Hreq Href) in Hpost. discriminate.
    + rewrite (post_gem_accepted _ _ _ _ Hreq Href) in Hpost.
      injection Hpost as _ <- <-. by eexists.
  - rewrite (post_gem_rejected _ _ _ _ Hreq) in Hpost. discriminate.
Qed.

Lemma list_after_create_witness :
  ∃ w2,
    get_gems one_gem =
      (Return {| status := 200;
                 body := Gems (hidden_gems no_gems ++
                                 [stored_gem 1700000000000 gen0 beach]) |},
       w2) ∧
    hidden_gems w2 = hidden_gems one_gem.
Proof.
  apply (list_after_create 1700000000000 gen0 beach no_gems
           (VObjectId gen0) (stored_gem 1700000000000 gen0 beach) one_gem).
  reflexivity.
Defined.

End ReadingBack.

(** ** Every route *)

Section Routes.

Implicit Types (w : world) (q : api_request) (d : doc).

Lemma nul_name_unserializable (d : doc) k :
  is_Some (d !! k) → has_char NUL k = true → serializable_doc d = false.
Proof.
  intros [x Hx] Hk. destruct (serializable_doc d) eqn:E; [|done].
  apply (proj1 (doc_forallb_true _ _) E) in Hx. by rewrite Hk in Hx.
Qed.

(** X8: what the store refuses is answered by the [catch] of the
    handler.  An update whose body has a field with the empty name, or with a
    NUL byte in its name, is answered with status 500, "Failed to update
    hidden gem", under every well-formed identifier, whether a record has it
    or not; a creation whose payload passes the check of the required fields
    and has a field with a NUL byte in its name is answered with status 500,
    "Failed to add hidden gem".  Neither changes the collection. *)
Theorem refused_calls_are_answered_500 k :
  k = "" ∨ has_char NUL k = true →
  (∀ gemId o updatedGem w,
     ObjectId.parse gemId = Some o →
     is_Some (updatedGem !! k) →
     ∃ w', put_gem gemId updatedGem w = (Return update_failed_response, w') ∧
           hidden_gems w' = hidden_gems w) ∧
  (∀ now gen newGem w,
     required_truthy newGem →
     is_Some (newGem !! k) →
     has_char NUL k = true →
     ∃ w', post_gem now gen newGem w = (Return insert_failed_response, w') ∧
           hidden_gems w' = hidden_gems w).
Proof.
  intros Hk. split.
  - intros gemId o updatedGem w Hparse Hin.
    assert (Hne : k ≠ "_id") by (by destruct Hk as [-> | Hk]; [|intros ->]).
    assert (Hin' : is_Some (delete "_id" updatedGem !! k))
      by by rewrite lookup_delete_ne.
    assert (Href : ∃ e, set_refusal (delete "_id" updatedGem) = Some e).
    { unfold set_refusal.
      destruct (serializable_doc (delete "_id" updatedGem)) eqn:E; simpl;
        [|by eexists].
      destruct Hk as [-> | Hk].
      - rewrite bool_decide_eq_true_2 by done. by eexists.
      - by rewrite (nul_name_unserializable _ _ Hin' Hk) in E. }
    destruct Href as [e Href].
    rewrite (put_gem_refused _ _ _ _ e Hparse Href). by eexists.
  - intros now gen newGem w Hreq Hin Hnul.
    assert (Href : ∃ e, insert_refusal (stored_gem now gen newGem)
                          (hidden_gems w) = Some e).
    { unfold insert_refusal.
      rewrite (nul_name_unserializable _ k); [by eexists| |done].
      rewrite stored_gem_field; [done| |]; by intros ->. }
    destruct Href as [e Href].
    rewrite (post_gem_refused _ _ _ _ e Hreq Href). by eexists.
Qed.

Lemma refused_calls_witness :
  ∃ w', put_gem (ObjectId.toHexString gen0) nameless one_gem =
          (Return update_failed_response, w') ∧
        hidden_gems w' = hidden_gems one_gem.
Proof.
  destruct (refused_calls_are_answered_500 "") as [Hput _]; [by left|].
  apply (Hput (ObjectId.toHexString gen0) gen0 nameless one_gem).
  - reflexivity.
  - by exists (VNum 1).
Defined.

(** X9: a request makes at most one call on the store, and the call is
    the one of its route: [find] for the list, [findOne] for a fetch,
    [insertOne] for a creation, [updateOne] for an update, [deleteOne] for a
    deletion, and none for the root route.  Calls made earlier stay on
    record. *)
Theorem at_most_one_store_call q w :
  calls (handle q w).2 = calls w ∨
  ∃ c, calls (handle q w).2 = calls w ++ [c] ∧ call_of q c.
Proof.
  destruct q as [| | gemId | now gen newGem | gemId updatedGem | gemId]; simpl.
  - by left.
  - right. by exists CallFind.
  - destruct (ObjectId.parse gemId) as [o|] eqn:Hparse.
    + rewrite (get_gem_valid _ _ _ Hparse). right. by eexists.
    + rewrite get_gem_invalid by (unfold ObjectId.isValid; by rewrite Hparse).
      by left.
  - destruct (required_truthy_dec newGem) as [Hreq | Hreq].
    + destruct (insert_refusal (stored_gem now gen newGem) (hidden_gems w))
        as [e|] eqn:Href.
      * rewrite (post_gem_refused _ _ _ _ _ Hreq Href). right. by eexists.
      * rewrite (post_gem_accepted _ _ _ _ Hreq Href). right. by eexists.
    + rewrite (post_gem_rejected _ _ _ _ Hreq). by left.
  - destruct (put_gem_calls gemId updatedGem w) as [H | [v H]]; [by left|].
    right. by eexists.
  - destruct (ObjectId.parse gemId) as [o|] eqn:Hparse.
    + rewrite (delete_gem_valid _ _ _ Hparse).
      destruct (delete_first _ _) as [r c]. right. by eexists.
    + rewrite delete_gem_invalid by (unfold ObjectId.isValid; by rewrite Hparse).
      by left.
Qed.

Lemma stored_gem_complete now gen newGem :
  required_truthy newGem → complete (stored_gem now gen newGem).
Proof.
  intros (t & d & c & Ht & _ & Hd & _ & Hc & _).
  unfold complete. rewrite stored_gem_id, stored_gem_date.
  rewrite !stored_gem_field by done. rewrite Ht, Hd, Hc. eauto 10.
Qed.

Lemma handle_consistent q w :
  consistent (hidden_gems w) → consistent (hidden_gems (handle q w).2).
Proof.
  intros [Hnd Hall].
  destruct q as [| | gemId | now gen newGem | gemId updatedGem | gemId]; simpl.
  - done.
  - done.
  - by rewrite get_gem_collection.
  - destruct (required_truthy_dec newGem) as [Hreq | Hreq];
      [|by rewrite (post_gem_rejected _ _ _ _ Hreq)].
    destruct (insert_refusal (stored_gem now gen newGem) (hidden_gems w))
      as [e|] eqn:Href;
      [by rewrite (post_gem_refused _ _ _ _ _ Hreq Href)|].
    rewrite (post_gem_accepted _ _ _ _ Hreq Href). simpl.
    apply insert_refusal_free in Href as (v & Hv & Hfree).
    rewrite stored_gem_id in Hv. injection Hv as <-.
    apply find_existsb in Hfree.
    pose proof (proj1 (find_none_no_match _ _) Hfree) as Hnone.
    split.
    + unfold ids. rewrite map_app. simpl. rewrite stored_gem_id.
      apply NoDup_app. split; [done|]. split; [|apply NoDup_singleton].
      intros x Hx Hx'. apply list_elem_of_singleton in Hx'. subst x.
      apply (list_elem_of_fmap (λ d : doc, d !! "_id")) in Hx
        as (d & Hd & Hin).
      by apply (Hnone d).
    + apply Forall_app. split; [done|].
      apply Forall_singleton. by apply stored_gem_complete.
  - split.
    + unfold ids. rewrite put_gem_field; [done | by left].
    + destruct (ObjectId.parse gemId) as [o|] eqn:Hparse.
      * destruct (put_gem_cases _ _ updatedGem w Hparse) as [-> | ->];
          [done|].
        pose proof (update_first_complete (VObjectId o)
                      (delete "_id" updatedGem) _ Hall) as H.
        by destruct (update_first _ _ _).
      * by rewrite put_gem_invalid
          by (unfold ObjectId.isValid; by rewrite Hparse).
  - pose proof (delete_gem_collection gemId w) as Hsub. split.
    + eapply sublist_NoDup; [exact Hnd|].
      by apply (fmap_sublist (λ d : doc, d !! "_id")).
    + apply Forall_forall. intros d Hd.
      apply (proj1 (Forall_forall _ _) Hall). by eapply elem_of_sublist.
Qed.

(** X10: the requests keep the collection consistent.  If no two records
    share an identifier and every record has its [_id], [submissionDate],
    [title], [description] and [category] fields, the same is true after any
    sequence of requests on the six routes: a creation is refused rather than
    duplicating an identifier, and an update can change a field of a record
    but not take it away. *)
Theorem requests_keep_collection_consistent qs w :
  consistent (hidden_gems w) → consistent (hidden_gems (handle_all qs w)).
Proof.
  revert w. induction qs as [|q qs IH]; intros w Hw; simpl; [done|].
  by apply IH, handle_consistent.
Qed.

Lemma requests_keep_collection_consistent_witness :
  consistent
    (hidden_gems
       (handle_all
          [PostGem 1700000000000 gen0 beach;
           PostGem 1700000000001 gen0 named_beach;
           PostGem 1700000000002 gen0 named_beach;
           PutGem (ObjectId.toHexString gen0) {[ "title" := VNull ]};
           DeleteGem (ObjectId.toHexString gen0)]
          no_gems)).
Proof.
  apply (requests_keep_collection_consistent _ no_gems).
  split; [apply NoDup_nil_2 | apply Forall_nil_2].
Defined.

(** X11: an update never adds a record (there is no upsert) and never
    removes one, and neither does a fetch, the list or the root route; a
    creation adds at most one record and a deletion removes at most one. *)
Theorem collection_size q w :
  match q with
  | PostGem _ _ _ =>
      length (hidden_gems (handle q w).2) = length (hidden_gems w) ∨
      length (hidden_gems (handle q w).2) = S (length (hidden_gems w))
  | DeleteGem _ =>
      length (hidden_gems (handle q w).2) = length (hidden_gems w) ∨
      S (length (hidden_gems (handle q w).2)) = length (hidden_gems w)
  | _ => length (hidden_gems (handle q w).2) = length (hidden_gems w)
  end.
Proof.
  destruct q as [| | gemId | now gen newGem | gemId updatedGem | gemId]; simpl.
  - done.
  - done.
  - by rewrite get_gem_collection.
  - destruct (post_gem_collection now gen newGem w) as [-> | ->]; [by left|].
    right. rewrite length_app. simpl. lia.
  - pose proof (put_gem_field gemId updatedGem w "_id" (or_introl eq_refl)) as H.
    apply (f_equal length) in H. by rewrite !length_map in H.
  - destruct (ObjectId.parse gemId) as [o|] eqn:Hparse.
    + rewrite (delete_gem_valid _ _ _ Hparse).
      destruct (List.find (has_id (VObjectId o)) (hidden_gems w)) as [d|] eqn:Hf.
      * destruct (delete_first_some _ _ _ Hf) as (l1 & l2 & Hc & _ & Hdel).
        rewrite Hdel, Hc. simpl. right. rewrite !length_app. simpl. lia.
      * rewrite (delete_first_none _ _ Hf). by left.
    + rewrite delete_gem_invalid by (unfold ObjectId.isValid; by rewrite Hparse).
      by left.
Qed.

(** X12: a request that is answered with status 400 or 404 has changed
    nothing: the collection after it is the collection before it, on every
    route. *)
Theorem client_errors_change_nothing q w r w' :
  handle q w = (Return r, w') →
  status r = 400 ∨ status r = 404 →
  hidden_gems w' = hidden_gems w.
Proof.
  intros Hq Hr.
  assert (H200 : status r ≠ 200) by (by destruct Hr as [-> | ->]).
  assert (H201 : status r ≠ 201) by (by destruct Hr as [-> | ->]).
  destruct q as [| | gemId | now gen newGem | gemId updatedGem | gemId];
    simpl in Hq.
  - by injection Hq as _ <-.
  - by injection Hq as _ <-.
  - rewrite <- (get_gem_collection gemId w). by rewrite Hq.
  - destruct (post_gem_collection now gen newGem w) as [H | H];
      [by rewrite Hq in H|].
    destruct (required_truthy_dec newGem) as [Hreq | Hreq];
      [|rewrite (post_gem_rejected _ _ _ _ Hreq) in Hq;
        by injection Hq as _ <-].
    destruct (insert_refusal (stored_gem now gen newGem) (hidden_gems w))
      as [e|] eqn:Href.
    + rewrite (post_gem_refused _ _ _ _ _ Hreq Href) in Hq.
      by injection Hq as _ <-.
    + rewrite (post_gem_accepted _ _ _ _ Hreq Href) in Hq.
      injection Hq as <- _. done.
  - destruct (ObjectId.parse gemId) as [o|] eqn:Hparse.
    + destruct (put_gem_cases _ _ updatedGem w Hparse) as [Hp | Hp];
        rewrite Hp in Hq; [by injection Hq as _ <-|].
      destruct (List.find (has_id (VObjectId o)) (hidden_gems w)) as [d|] eqn:Hf.
      * destruct (update_first_some _ (delete "_id" updatedGem) _ _ Hf)
          as (l1 & l2 & _ & _ & Hup).
        rewrite Hup in Hq. injection Hq as <- _.
        unfold put_response in H200. simpl in H200. by case_decide.
      * rewrite (update_first_none _ _ _ Hf) in Hq. by injection Hq as _ <-.
    + rewrite put_gem_invalid in Hq
        by (unfold ObjectId.isValid; by rewrite Hparse).
      by injection Hq as _ <-.
  - destruct (ObjectId.parse gemId) as [o|] eqn:Hparse.
    + rewrite (delete_gem_valid _ _ _ Hparse) in Hq.
      destruct (List.find (has_id (VObjectId o)) (hidden_gems w)) as [d|] eqn:Hf.
      * destruct (delete_first_some _ _ _ Hf) as (l1 & l2 & _ & _ & Hdel).
        rewrite Hdel in Hq. by injection Hq as <- _.
      * rewrite (delete_first_none _ _ Hf) in Hq. by injection Hq as _ <-.
    + rewrite delete_gem_invalid in Hq
        by (unfold ObjectId.isValid; by rewrite Hparse).
      by injection Hq as _ <-.
Qed.

Lemma client_errors_change_nothing_witness :
  hidden_gems
    (record_call
       (CallDeleteOne
          (VObjectId (default [] (ObjectId.parse "0123456789abcdef01234567"))))
       one_gem)
  = hidden_gems one_gem.
Proof.
  apply (client_errors_change_nothing
           (DeleteGem "0123456789abcdef01234567") one_gem
           already_deleted_response).
  - vm_compute. reflexivity.
  - right. reflexivity.
Defined.

End Routes.
